(** * Discrete multi-fidelity Bayesian optimisation tutorial

    A shallow embedding of [tutorials/discrete_multi_fidelity_bo.ipynb].

    The notebook is orchestration code over torch / botorch / gpytorch.  The
    library entry points it calls are gathered in the record [BoTorch]; the
    notebook's own cells and helper functions are translated one by one on
    top of it, in an error-and-state monad: the state is the interpreter's
    hidden world (random generator, fitted hyper-parameters of the models),
    the error is a raised Python exception.

    Numbers: the notebook computes in [torch.double].  Tensor entries are
    modelled by exact rationals [Q].  Every number the notebook itself
    computes with (0.5, 0.75, 1.0, 5.0 and short sums of 5.5, 5.75, 6.0) is a
    dyadic rational on which binary64 arithmetic is exact. *)

From Stdlib Require Import String.
From Stdlib Require Import List QArith Lia Bool Arith ZArith.
Import ListNotations.

Set Implicit Arguments.

Open Scope Q_scope.

(* ================================================================== *)
(** ** Exceptions and the notebook monad *)

(** A raised Python exception, identified by its class name and message. *)
Definition exn := string.

Inductive result (A : Type) : Type :=
| Ok (a : A)
| Raise (e : exn).

Arguments Ok {A} a.
Arguments Raise {A} e.

(** A computation that reads and updates the world [W], and may raise. *)
Definition M (W A : Type) : Type := W -> result (A * W).

Definition ret {W A} (a : A) : M W A := fun w => Ok (a, w).

Definition bind {W A B} (c : M W A) (k : A -> M W B) : M W B :=
  fun w =>
    match c w with
    | Ok (a, w') => k a w'
    | Raise e => Raise e
    end.

(** A pure operation that may raise (shape and index errors). *)
Definition lift {W A} (r : result A) : M W A :=
  fun w =>
    match r with
    | Ok a => Ok (a, w)
    | Raise e => Raise e
    end.

Declare Scope nb_scope.
Delimit Scope nb_scope with nb.

Notation "x <- c ;; k" := (bind c (fun x => k))
  (at level 100, c at next level, right associativity) : nb_scope.
Notation "' p <- c ;; k" := (bind c (fun x => match x with p => k end))
  (at level 100, p pattern, c at next level, right associativity) : nb_scope.

Open Scope nb_scope.

(** [mapR f l]: apply a fallible function to every element, left to right. *)
Fixpoint mapR {A B} (f : A -> result B) (l : list A) : result (list B) :=
  match l with
  | [] => Ok []
  | a :: l' =>
      match f a with
      | Ok b =>
          match mapR f l' with
          | Ok bs => Ok (b :: bs)
          | Raise e => Raise e
          end
      | Raise e => Raise e
      end
  end.

(** Python's [for _ in range(n): body], the loop body acting on the
    notebook's variables [S]. *)
Fixpoint for_range {W S} (n : nat) (body : S -> M W S) (st : S) : M W S :=
  match n with
  | O => ret st
  | S n' => st' <- body st ;; for_range n' body st'
  end.

(* ================================================================== *)
(** ** Tensors *)

(** A two-dimensional tensor is the list of its rows; a one-dimensional
    tensor is a list. *)
Definition tensor := list (list Q).
Definition itensor := list (list nat).

Definition IndexError : exn := "IndexError"%string.
Definition RuntimeError : exn := "RuntimeError"%string.
Definition NameError : exn := "NameError"%string.
Definition AttributeError : exn := "AttributeError"%string.

Definition Qsum (l : list Q) : Q := fold_right Qplus 0 l.

(** [t.sum()]: the sum of all entries. *)
Definition tensor_sum (t : tensor) : Q := Qsum (concat t).

Definition Qmax (a b : Q) : Q := if Qle_bool a b then b else a.

(** [t.max()]: the largest entry; torch raises on an empty tensor. *)
Definition tensor_max (t : tensor) : result Q :=
  match concat t with
  | [] => Raise RuntimeError
  | y :: ys => Ok (fold_left Qmax ys y)
  end.

(** [v.unsqueeze(-1)]: shape (n) to shape (n, 1). *)
Definition unsqueeze (v : list Q) : tensor := map (fun y => [y]) v.

(** All rows of [t] have the width of the first one. *)
Definition same_width (t : tensor) : bool :=
  match t with
  | [] => true
  | r :: t' => forallb (fun r' => Nat.eqb (length r') (length r)) t'
  end.

(** [torch.cat([a, b])] along dimension 0: the row widths must agree. *)
Definition torch_cat (a b : tensor) : result tensor :=
  if same_width (a ++ b) then Ok (a ++ b) else Raise RuntimeError.

Fixpoint zip_rows (a b : tensor) : tensor :=
  match a, b with
  | r :: a', s :: b' => (r ++ s) :: zip_rows a' b'
  | _, _ => []
  end.

(** [torch.cat((a, b), dim=1)]: the row counts must agree. *)
Definition torch_cat_dim1 (a b : tensor) : result tensor :=
  if Nat.eqb (length a) (length b) then Ok (zip_rows a b)
  else Raise RuntimeError.

(** [values[idx]] for a one-dimensional [values] and an index tensor:
    the result has the shape of [idx]. *)
Definition index_select (values : list Q) (idx : itensor) : result tensor :=
  mapR (mapR (fun i =>
                match nth_error values i with
                | Some v => Ok v
                | None => Raise IndexError
                end)) idx.

(** [b[:, :-1]]: every row without its last entry. *)
Definition drop_last_column (b : tensor) : tensor := map (@removelast Q) b.

(** The fidelity coordinate of a 7-dimensional point. *)
Definition fidelity_of (x : list Q) : Q := nth 6 x 0.

(* ================================================================== *)
(** ** Library objects the notebook builds *)

(** Objects are records of the arguments their constructors were given. *)

Inductive OutcomeTransform : Type :=
| Standardize (m : nat).

(** [AffineFidelityCostModel(fidelity_weights, fixed_cost)]. *)
Record AffineFidelityCostModel : Type := {
  fidelity_weights : list (nat * Q);
  fixed_cost : Q
}.

(** [InverseCostWeightedUtility(cost_model)]. *)
Record InverseCostWeightedUtility : Type := {
  utility_cost_model : AffineFidelityCostModel
}.

(** The keyword dictionary [options] of the optimisers. *)
Record Options : Type := {
  batch_limit : nat;
  maxiter : nat
}.

Section Objects.
Variable Model : Type.

(** [model.likelihood]. *)
Inductive Likelihood : Type :=
| likelihood_of (model : Model).

(** [ExactMarginalLogLikelihood(likelihood, model)]: it holds a reference
    to the model, which fitting updates in place. *)
Record MLL : Type := ExactMarginalLogLikelihood {
  mll_likelihood : Likelihood;
  mll_model : Model
}.

(** Acquisition-function objects. *)
Inductive Acqf : Type :=
| PosteriorMean (model : Model)
| qExpectedImprovement (model : Model) (best_f : Q)
| qMultiFidelityKnowledgeGradient
    (model : Model) (num_fantasies : nat) (current_value : Q)
    (cost_aware_utility : InverseCostWeightedUtility)
    (project : tensor -> tensor)
| FixedFeatureAcquisitionFunction
    (acq_function : Acqf) (d : nat) (columns : list nat) (values : list Q).
End Objects.

Arguments PosteriorMean {Model} model.
Arguments qExpectedImprovement {Model} model best_f.
Arguments qMultiFidelityKnowledgeGradient {Model} model num_fantasies
  current_value cost_aware_utility project.
Arguments FixedFeatureAcquisitionFunction {Model} acq_function d columns values.
Arguments likelihood_of {Model} model.
Arguments ExactMarginalLogLikelihood {Model} mll_likelihood mll_model.

(** *** Library code of the repository that the notebook relies on *)

(** Modelled from the spec: the linear part of the affine cost model, the
    weighted sum of the fidelity coordinates of a point.  Indexing a
    missing coordinate raises. *)
Fixpoint weighted_fidelities (ws : list (nat * Q)) (x : list Q) : result Q :=
  match ws with
  | [] => Ok 0
  | (i, wt) :: ws' =>
      match nth_error x i with
      | Some s =>
          match weighted_fidelities ws' x with
          | Ok rest => Ok (s * wt + rest)
          | Raise e => Raise e
          end
      | None => Raise IndexError
      end
  end.

(** Modelled from the spec: [AffineFidelityCostModel.forward], which is not
    part of the notebook.  The cost of a point is affine in its fidelity:
    the fixed cost plus the weighted fidelity coordinates (in the notebook's
    words, "the cost function takes the form 5.0 + s").  The result has
    shape (n, 1). *)
Definition cost_forward (cm : AffineFidelityCostModel) (X : tensor)
  : result tensor :=
  mapR (fun x =>
          match weighted_fidelities (fidelity_weights cm) x with
          | Ok lin => Ok [fixed_cost cm + lin]
          | Raise e => Raise e
          end) X.

(** Modelled from the spec: the completion of one point by fixed features.
    The fixed values are placed at the fixed columns of a [d]-dimensional
    point and the free coordinates fill the other positions in order (with
    fixed column 6 of 7, the fidelity is "appended as a 7th coordinate"). *)
Fixpoint fill_row (n i : nat) (columns : list nat) (values x : list Q)
  : list Q :=
  match n with
  | O => []
  | S n' =>
      if existsb (Nat.eqb i) columns then
        match values with
        | v :: values' => v :: fill_row n' (S i) columns values' x
        | [] => []
        end
      else
        match x with
        | a :: x' => a :: fill_row n' (S i) columns values x'
        | [] => []
        end
  end.

(** Modelled from the spec: [FixedFeatureAcquisitionFunction._construct_X_full],
    which is not part of the notebook: every point is completed by the
    fixed features of the acquisition function.  The other acquisition
    functions have no such method. *)
Definition construct_X_full {Model} (acqf : Acqf Model) (X : tensor)
  : result tensor :=
  match acqf with
  | FixedFeatureAcquisitionFunction _ d columns values =>
      Ok (map (fill_row d 0 columns values) X)
  | _ => Raise AttributeError
  end.

(** [x] with coordinate [i] overwritten by [v]. *)
Fixpoint set_coord (i : nat) (v : Q) (x : list Q) : list Q :=
  match x, i with
  | [], _ => []
  | _ :: x', O => v :: x'
  | a :: x', S i' => a :: set_coord i' v x'
  end.

(** Modelled from the spec: [project_to_target_fidelity], which is not part
    of the notebook.  Every point is projected to the target fidelity: the
    listed coordinates are overwritten by their target values. *)
Definition project_to_target_fidelity (X : tensor)
  (target_fidelities : list (nat * Q)) : tensor :=
  map (fun x => fold_left (fun x' p => set_coord (fst p) (snd p) x')
                          target_fidelities x) X.

(** Modelled from the spec: [AugmentedHartmann.dim], which is not part of
    the notebook: six design coordinates and the fidelity. *)
Definition problem_dim : nat := 7.

(** *** Library entry points *)

(** The calls whose results the notebook does not determine: random number
    generation, the test function, model construction and fitting, and the
    optimisers.  Arguments are in the order of the notebook's keywords. *)
Record BoTorch : Type := {
  world : Type;
  Model : Type;
  (** [torch.rand(n, m)] *)
  torch_rand : nat -> nat -> M world tensor;
  (** [torch.randint(high, (n, m))] *)
  torch_randint : nat -> nat -> nat -> M world itensor;
  (** the value of the test function at one point *)
  evaluate_true : list Q -> result Q;
  (** [SingleTaskMultiFidelityGP(train_X, train_Y, outcome_transform, data_fidelity)] *)
  SingleTaskMultiFidelityGP :
    tensor -> tensor -> OutcomeTransform -> nat -> M world Model;
  (** [fit_gpytorch_model(mll)] *)
  fit_gpytorch_model : MLL Model -> M world (MLL Model);
  (** [optimize_acqf(acq_function, bounds, q, num_restarts, raw_samples, options)] *)
  optimize_acqf :
    Acqf Model -> tensor -> nat -> nat -> nat -> Options -> M world (tensor * Q);
  (** [gen_one_shot_kg_initial_conditions(acq_function, bounds, q, num_restarts, raw_samples)] *)
  gen_one_shot_kg_initial_conditions :
    Acqf Model -> tensor -> nat -> nat -> nat -> M world tensor;
  (** [optimize_acqf_mixed(acq_function, bounds, fixed_features_list, q,
      num_restarts, raw_samples, batch_initial_conditions, options)] *)
  optimize_acqf_mixed :
    Acqf Model -> tensor -> list (list (nat * Q)) -> nat -> nat -> nat ->
    tensor -> Options -> M world (tensor * Q)
}.

(** Modelled from the spec: the test function's [forward], which is not
    part of the notebook: "scalar function outputs per point". *)
Definition problem (L : BoTorch) (X : tensor) : result (list Q) :=
  mapR (evaluate_true L) X.

(* ================================================================== *)
(** ** The notebook *)

(** Python truthiness of [os.environ.get(name)]: unset and the empty string
    are false. *)
Definition truthy (v : option string) : bool :=
  match v with
  | None => false
  | Some s => negb (String.eqb s EmptyString)
  end.

(** The notebook's variables that outlive a cell. *)
Record Globals (Model : Type) : Type := {
  train_x : tensor;
  train_obj : tensor;
  cumulative_cost : Q;
  model : option Model
}.

Arguments Build_Globals {Model} train_x train_obj cumulative_cost model.

Section Notebook.
Variable L : BoTorch.

(** [SMOKE_TEST = os.environ.get("SMOKE_TEST")] *)
Variable SMOKE_TEST : option string.

Definition fidelities : list Q := [1 # 2; 3 # 4; 1].

Definition generate_initial_data (n : nat) : M (world L) (tensor * tensor) :=
  train_x <- torch_rand L n 6 ;;
  idx <- torch_randint L 3 n 1 ;;
  train_f <- lift (index_select fidelities idx) ;;
  train_x_full <- lift (torch_cat_dim1 train_x train_f) ;;
  y <- lift (problem L train_x_full) ;;
  let train_obj := unsqueeze y in
  ret (train_x_full, train_obj).

Definition initialize_model (train_x train_obj : tensor)
  : M (world L) (MLL (Model L) * Model L) :=
  model <- SingleTaskMultiFidelityGP L train_x train_obj (Standardize 1) 6 ;;
  let mll := ExactMarginalLogLikelihood (likelihood_of model) model in
  ret (mll, model).

Definition bounds : tensor := [repeat 0 problem_dim; repeat 1 problem_dim].
Definition target_fidelities : list (nat * Q) := [(6%nat, 1)].

Definition cost_model : AffineFidelityCostModel :=
  {| fidelity_weights := [(6%nat, 1)]; fixed_cost := 5 |}.
Definition cost_aware_utility : InverseCostWeightedUtility :=
  {| utility_cost_model := cost_model |}.

Definition project (X : tensor) : tensor :=
  project_to_target_fidelity X target_fidelities.

Definition get_mfkg (model : Model L) : M (world L) (Acqf (Model L)) :=
  let curr_val_acqf :=
    FixedFeatureAcquisitionFunction (PosteriorMean model) 7 [6%nat] [1] in
  '(_, current_value) <-
    optimize_acqf L curr_val_acqf (drop_last_column bounds) 1
      (if negb (truthy SMOKE_TEST) then 10 else 2)
      (if negb (truthy SMOKE_TEST) then 1024 else 4)
      {| batch_limit := 10; maxiter := 200 |} ;;
  ret (qMultiFidelityKnowledgeGradient model
         (if negb (truthy SMOKE_TEST) then 128 else 2)
         current_value cost_aware_utility project).

Definition NUM_RESTARTS : nat := if negb (truthy SMOKE_TEST) then 10 else 2.
Definition RAW_SAMPLES : nat := if negb (truthy SMOKE_TEST) then 512 else 4.

(** The two [print] calls have no effect on the returned values and are
    left out, here and below. *)
Definition optimize_mfkg_and_get_observation (mfkg_acqf : Acqf (Model L))
  : M (world L) (tensor * tensor * Q) :=
  X_init <- gen_one_shot_kg_initial_conditions L mfkg_acqf bounds 4 10 512 ;;
  '(candidates, _) <-
    optimize_acqf_mixed L mfkg_acqf bounds
      [[(6%nat, 1 # 2)]; [(6%nat, 3 # 4)]; [(6%nat, 1)]]
      4 NUM_RESTARTS RAW_SAMPLES X_init
      {| batch_limit := 5; maxiter := 200 |} ;;
  costs <- lift (cost_forward cost_model candidates) ;;
  let cost := tensor_sum costs in
  let new_x := candidates in
  y <- lift (problem L new_x) ;;
  let new_obj := unsqueeze y in
  ret (new_x, new_obj, cost).

Definition N_ITER : nat := if negb (truthy SMOKE_TEST) then 3 else 1.

(** One pass through the body of the multi-fidelity loop. *)
Definition kg_iteration (g : Globals (Model L))
  : M (world L) (Globals (Model L)) :=
  '(mll, model) <- initialize_model (train_x g) (train_obj g) ;;
  _ <- fit_gpytorch_model L mll ;;
  mfkg_acqf <- get_mfkg model ;;
  '(new_x, new_obj, cost) <- optimize_mfkg_and_get_observation mfkg_acqf ;;
  train_x' <- lift (torch_cat (train_x g) new_x) ;;
  train_obj' <- lift (torch_cat (train_obj g) new_obj) ;;
  ret (Build_Globals train_x' train_obj' (cumulative_cost g + cost)
         (Some model)).

Definition get_recommendation (model : Model L) : M (world L) tensor :=
  let rec_acqf :=
    FixedFeatureAcquisitionFunction (PosteriorMean model) 7 [6%nat] [1] in
  '(final_rec, _) <-
    optimize_acqf L rec_acqf (drop_last_column bounds) 1 10 512
      {| batch_limit := 5; maxiter := 200 |} ;;
  final_rec <- lift (construct_X_full rec_acqf final_rec) ;;
  objective_value <- lift (problem L final_rec) ;;
  ret final_rec.

(** Reading a notebook variable that no cell has assigned yet. *)
Definition lookup {A} (v : option A) : M (world L) A :=
  match v with
  | Some a => ret a
  | None => lift (Raise NameError)
  end.

(** Cells 12, 14 and 17: initial data, the multi-fidelity loop and the
    recommendation.  [g0] holds the variables already bound. *)
Definition kg_run (g0 : Globals (Model L))
  : M (world L) (tensor * Globals (Model L)) :=
  '(train_x0, train_obj0) <- generate_initial_data 16 ;;
  let g := Build_Globals train_x0 train_obj0 0 (model g0) in
  g' <- for_range N_ITER kg_iteration g ;;
  model <- lookup (model g') ;;
  final_rec <- get_recommendation model ;;
  ret (final_rec, g').

Definition get_ei (model : Model L) (best_f : Q) : Acqf (Model L) :=
  FixedFeatureAcquisitionFunction
    (qExpectedImprovement model best_f) 7 [6%nat] [1].

Definition optimize_ei_and_get_observation (ei_acqf : Acqf (Model L))
  : M (world L) (tensor * tensor * Q) :=
  '(candidates, _) <-
    optimize_acqf L ei_acqf (drop_last_column bounds) 4 10 512
      {| batch_limit := 5; maxiter := 200 |} ;;
  candidates <- lift (construct_X_full ei_acqf candidates) ;;
  costs <- lift (cost_forward cost_model candidates) ;;
  let cost := tensor_sum costs in
  let new_x := candidates in
  y <- lift (problem L new_x) ;;
  let new_obj := unsqueeze y in
  ret (new_x, new_obj, cost).

(** One pass through the body of the expected-improvement loop. *)
Definition ei_iteration (g : Globals (Model L))
  : M (world L) (Globals (Model L)) :=
  '(mll, model) <- initialize_model (train_x g) (train_obj g) ;;
  _ <- fit_gpytorch_model L mll ;;
  best_f <- lift (tensor_max (train_obj g)) ;;
  let ei_acqf := get_ei model best_f in
  '(new_x, new_obj, cost) <- optimize_ei_and_get_observation ei_acqf ;;
  train_x' <- lift (torch_cat (train_x g) new_x) ;;
  train_obj' <- lift (torch_cat (train_obj g) new_obj) ;;
  ret (Build_Globals train_x' train_obj' (cumulative_cost g + cost)
         (Some model)).

(** Cells 20 and 21: the expected-improvement baseline. *)
Definition ei_run (g0 : Globals (Model L))
  : M (world L) (tensor * Globals (Model L)) :=
  let cumulative_cost0 := 0 in
  '(train_x0, train_obj0) <- generate_initial_data 16 ;;
  let g := Build_Globals train_x0 train_obj0 cumulative_cost0 (model g0) in
  g' <- for_range N_ITER ei_iteration g ;;
  model <- lookup (model g') ;;
  final_rec <- get_recommendation model ;;
  ret (final_rec, g').

(** All cells in order.  Before the first cell no variable is bound. *)
Definition notebook
  : M (world L) ((tensor * Globals (Model L)) * (tensor * Globals (Model L))) :=
  kg <- kg_run (Build_Globals [] [] 0 None) ;;
  ei <- ei_run (snd kg) ;;
  ret (kg, ei).

End Notebook.

(* ================================================================== *)
(** ** What the notebook expects of the library *)

(** [x] lies between the two rows of [b], coordinate by coordinate (so it
    has their width). *)
Definition in_bounds (b : tensor) (x : list Q) : Prop :=
  match b with
  | [lo; hi] => Forall2 Qle lo x /\ Forall2 Qle x hi
  | _ => False
  end.

(** [x] carries the fixed features [ff], a dictionary column -> value. *)
Definition has_fixed (ff : list (nat * Q)) (x : list Q) : Prop :=
  Forall (fun p => nth_error x (fst p) = Some (snd p)) ff.

(** Modelled from the spec: the results of the random generators and of the
    optimisers, which are not part of the notebook.  Random design points
    are "arrays of shape (n, 6), values in [0,1]"; random indices are below
    their bound; an optimiser returns [q] candidate points inside the
    bounds it was given, and the mixed optimiser fixes, in every candidate,
    the features of one entry of [fixed_features_list]. *)
Record BoTorchSpec (L : BoTorch) : Prop := {
  torch_rand_spec :
    forall n m w X w',
      torch_rand L n m w = Ok (X, w') ->
      length X = n /\
      Forall (fun r => length r = m /\ Forall (fun v => 0 <= v /\ v < 1) r) X;
  torch_randint_spec :
    forall high n m w I w',
      torch_randint L high n m w = Ok (I, w') ->
      length I = n /\
      Forall (fun r => length r = m /\ Forall (fun i => (i < high)%nat) r) I;
  optimize_acqf_spec :
    forall acq b q nr rs o w X v w',
      optimize_acqf L acq b q nr rs o w = Ok (X, v, w') ->
      length X = q /\ Forall (in_bounds b) X;
  optimize_acqf_mixed_spec :
    forall acq b ffl q nr rs ic o w X v w',
      optimize_acqf_mixed L acq b ffl q nr rs ic o w = Ok (X, v, w') ->
      length X = q /\
      Forall (fun x => in_bounds b x /\ Exists (fun ff => has_fixed ff x) ffl) X
}.

(* ================================================================== *)
(** ** An executable instance of the library *)

(** A deterministic stand-in for the library, used to run the notebook on
    concrete inputs.  Its world counts the random draws, records every call
    with its size parameters, and carries a fuse: the call made when the
    fuse is at zero raises. *)
Module Toy.

Record Call : Type := {
  entry : string;
  sizes : list nat
}.

Record World : Type := {
  seed : nat;
  fuse : nat;
  trace : list Call
}.

Definition LibraryError : exn := "LibraryError"%string.

Definition call {A} (name : string) (szs : list nat) (f : nat -> A)
  : M World A :=
  fun w =>
    match fuse w with
    | O => Raise LibraryError
    | S k =>
        Ok (f (seed w),
            {| seed := S (seed w); fuse := k;
               trace := trace w ++ [{| entry := name; sizes := szs |}] |})
    end.

Definition ValueError : exn := "ValueError"%string.

(** A call whose result is validated before it is returned. *)
Definition checked_call {A} (name : string) (szs : list nat) (f : nat -> A)
  (valid : A -> bool) : M World A :=
  fun w => if valid (f (seed w)) then call name szs f w else Raise ValueError.

Definition GP : Type := tensor * tensor.

(** The fantasy count an acquisition function was built with. *)
Fixpoint fantasies (a : Acqf GP) : list nat :=
  match a with
  | qMultiFidelityKnowledgeGradient _ n _ _ _ => [n]
  | FixedFeatureAcquisitionFunction a' _ _ _ => fantasies a'
  | _ => []
  end.

Definition rand (n m : nat) : M World tensor :=
  call "torch.rand" [n; m]
    (fun s => repeat (repeat (Z.of_nat (1 + s mod 4) # 8) m) n).

Definition randint (high n m : nat) : M World itensor :=
  match high with
  | O => lift (Raise RuntimeError)
  | S _ =>
      call "torch.randint" [high; n; m]
        (fun s => map (fun i => repeat ((s + i) mod high)%nat m) (seq 0 n))
  end.

(** A test function that is larger at lower fidelity. *)
Definition evaluate (x : list Q) : result Q := Ok (2 - fidelity_of x).

Definition gp (X Y : tensor) (t : OutcomeTransform) (data_fidelity : nat)
  : M World GP :=
  call "SingleTaskMultiFidelityGP" [] (fun _ => (X, Y)).

Definition fit (mll : MLL GP) : M World (MLL GP) :=
  call "fit_gpytorch_model" [] (fun _ => mll).

Fixpoint forall2b {A B} (f : A -> B -> bool) (l1 : list A) (l2 : list B)
  : bool :=
  match l1, l2 with
  | [], [] => true
  | a :: l1', b :: l2' => f a b && forall2b f l1' l2'
  | _, _ => false
  end.

Definition in_boundsb (b : tensor) (x : list Q) : bool :=
  match b with
  | [lo; hi] => forall2b Qle_bool lo x && forall2b Qle_bool x hi
  | _ => false
  end.

(** Equality of representations, not of values. *)
Definition Q_same (a b : Q) : bool :=
  Z.eqb (Qnum a) (Qnum b) && Pos.eqb (Qden a) (Qden b).

Definition has_fixedb (ff : list (nat * Q)) (x : list Q) : bool :=
  forallb (fun p =>
             match nth_error x (fst p) with
             | Some v => Q_same v (snd p)
             | None => false
             end) ff.

(** The optimiser returns the lower corner of the bounds, [q] times. *)
Definition optimize (a : Acqf GP) (b : tensor) (q nr rs : nat)
  (o : Options) : M World (tensor * Q) :=
  checked_call "optimize_acqf" ([q; nr; rs] ++ fantasies a)
    (fun _ => (repeat (hd [] b) q, 0))
    (fun r => forallb (in_boundsb b) (fst r)).

Definition initial_conditions (a : Acqf GP) (b : tensor) (q nr rs : nat)
  : M World tensor :=
  call "gen_one_shot_kg_initial_conditions" ([q; nr; rs] ++ fantasies a)
    (fun _ => repeat (hd [] b) nr).

Definition apply_fixed (ff : list (nat * Q)) (x : list Q) : list Q :=
  fold_left (fun x' p => set_coord (fst p) (snd p) x') ff x.

(** The mixed optimiser returns the lower corner with the features of one
    entry of the list fixed, [q] times. *)
Definition optimize_mixed (a : Acqf GP) (b : tensor)
  (ffl : list (list (nat * Q))) (q nr rs : nat) (ic : tensor) (o : Options)
  : M World (tensor * Q) :=
  checked_call "optimize_acqf_mixed" ([q; nr; rs] ++ fantasies a)
    (fun s =>
       (repeat (apply_fixed (nth (s mod length ffl) ffl []) (hd [] b)) q, 0))
    (fun r => forallb (fun x => in_boundsb b x
                                && existsb (fun ff => has_fixedb ff x) ffl)
                      (fst r)).

Definition lib : BoTorch := {|
  world := World;
  Model := GP;
  torch_rand := rand;
  torch_randint := randint;
  evaluate_true := evaluate;
  SingleTaskMultiFidelityGP := gp;
  fit_gpytorch_model := fit;
  optimize_acqf := optimize;
  gen_one_shot_kg_initial_conditions := initial_conditions;
  optimize_acqf_mixed := optimize_mixed
|}.

(** A world in which no call raises during a run of the notebook. *)
Definition w0 : World := {| seed := 0; fuse := 1000; trace := [] |}.

(** The notebook's variables before the first cell: nothing is bound. *)
Definition g0 : Globals GP := Build_Globals [] [] 0 None.

(** Another test function: it differs from [evaluate] on the points whose
    first coordinate is 0 and whose fidelity is 3/4. *)
Definition evaluate' (x : list Q) : result Q :=
  if Qeq_bool (nth 0 x 1) 0 && Qeq_bool (fidelity_of x) (3 # 4)
  then Ok 100
  else evaluate x.

(** A third test function: it differs from [evaluate] on the points whose
    first coordinate is 0 and whose fidelity is 1. *)
Definition evaluate'' (x : list Q) : result Q :=
  if Qeq_bool (nth 0 x 1) 0 && Qeq_bool (fidelity_of x) 1
  then Ok 100
  else evaluate x.

(** The state after the first cell that draws the initial data. *)
Definition g1 : Globals GP :=
  match generate_initial_data lib 16 w0 with
  | Ok (X0, Y0, _) => Build_Globals X0 Y0 0 None
  | Raise _ => g0
  end.

Definition w1 : World :=
  match generate_initial_data lib 16 w0 with
  | Ok (_, _, w) => w
  | Raise _ => w0
  end.

(** The calls recorded by a run, in order: the entry point and its size
    parameters, which for an optimiser are [q], [num_restarts],
    [raw_samples] and then the [num_fantasies] of its acquisition function
    if it has one. *)
Definition calls {A} (r : result (A * World)) : list (string * list nat) :=
  match r with
  | Ok (_, w) => map (fun c => (entry c, sizes c)) (trace w)
  | Raise _ => []
  end.

End Toy.

(* ================================================================== *)
(** ** Notions the properties are stated with *)

(** The affine cost of evaluating one point: 5.0 plus its fidelity. *)
Definition point_cost (x : list Q) : Q := 5 + fidelity_of x.

(** The cost of a batch of candidates, and of a sequence of batches. *)
Definition batch_cost (b : tensor) : Q := Qsum (map point_cost b).
Definition total_cost (bs : list tensor) : Q := Qsum (map batch_cost bs).

(** [t] has shape (n, m). *)
Definition shape (t : tensor) (n m : nat) : Prop :=
  length t = n /\ Forall (fun r => length r = m) t.

(** A training input: six design coordinates in [0,1] followed by one of
    the three fidelities. *)
Definition valid_point (x : list Q) : Prop :=
  length x = 7%nat /\
  Forall (fun v => 0 <= v /\ v <= 1) (firstn 6 x) /\
  In (fidelity_of x) fidelities.

(** A valid training input at the target fidelity. *)
Definition target_point (x : list Q) : Prop :=
  valid_point x /\ fidelity_of x = 1.

(** [g'] is [g] extended by the batch [new_x] and its observations, every
    point of the batch satisfying [P]. *)
Definition extends_by {Mdl} (P : list Q -> Prop) (g g' : Globals Mdl)
  (new_x new_obj : tensor) : Prop :=
  train_x g' = train_x g ++ new_x /\
  train_obj g' = train_obj g ++ new_obj /\
  cumulative_cost g' == cumulative_cost g + batch_cost new_x /\
  length new_x = 4%nat /\
  Forall P new_x /\
  shape new_obj 4 1.

(** The library [L] with another test function. *)
Definition with_evaluate (L : BoTorch) (f : list Q -> result Q) : BoTorch := {|
  world := world L;
  Model := Model L;
  torch_rand := torch_rand L;
  torch_randint := torch_randint L;
  evaluate_true := f;
  SingleTaskMultiFidelityGP := SingleTaskMultiFidelityGP L;
  fit_gpytorch_model := fit_gpytorch_model L;
  optimize_acqf := optimize_acqf L;
  gen_one_shot_kg_initial_conditions := gen_one_shot_kg_initial_conditions L;
  optimize_acqf_mixed := optimize_acqf_mixed L
|}.

(** *** The baseline and the multi-fidelity phase side by side *)

Section Phases.
Variable L : BoTorch.
Variable SMOKE_TEST : option string.

(** One pass of a Bayesian-optimisation loop around an acquisition stage
    [acquire], which gets the notebook's variables and the fitted model and
    returns the new points, their observations and their cost. *)
Definition bo_iteration
  (acquire : Globals (Model L) -> Model L -> M (world L) (tensor * tensor * Q))
  (g : Globals (Model L)) : M (world L) (Globals (Model L)) :=
  '(mll, model) <- initialize_model L (train_x g) (train_obj g) ;;
  _ <- fit_gpytorch_model L mll ;;
  '(new_x, new_obj, cost) <- acquire g model ;;
  train_x' <- lift (torch_cat (train_x g) new_x) ;;
  train_obj' <- lift (torch_cat (train_obj g) new_obj) ;;
  ret (Build_Globals train_x' train_obj' (cumulative_cost g + cost)
         (Some model)).

(** A phase: fresh initial data, [N_ITER] passes, the recommendation. *)
Definition bo_phase
  (acquire : Globals (Model L) -> Model L -> M (world L) (tensor * tensor * Q))
  (g0 : Globals (Model L)) : M (world L) (tensor * Globals (Model L)) :=
  '(train_x0, train_obj0) <- generate_initial_data L 16 ;;
  g' <- for_range (N_ITER SMOKE_TEST) (bo_iteration acquire)
          (Build_Globals train_x0 train_obj0 0 (model g0)) ;;
  model <- lookup L (model g') ;;
  final_rec <- get_recommendation L model ;;
  ret (final_rec, g').

(** The acquisition stage of the multi-fidelity phase. *)
Definition kg_acquire (g : Globals (Model L)) (model : Model L)
  : M (world L) (tensor * tensor * Q) :=
  mfkg_acqf <- get_mfkg L SMOKE_TEST model ;;
  optimize_mfkg_and_get_observation L SMOKE_TEST mfkg_acqf.

(** The acquisition stage of the baseline. *)
Definition ei_acquire (g : Globals (Model L)) (model : Model L)
  : M (world L) (tensor * tensor * Q) :=
  best_f <- lift (tensor_max (train_obj g)) ;;
  optimize_ei_and_get_observation L (get_ei L model best_f).

(** The acquisition stage of the baseline as the specification words it:
    the stage of the multi-fidelity phase with an expected-improvement
    acquisition function in place of the knowledge gradient, and nothing
    else changed. *)
Definition spec_ei_acquire (g : Globals (Model L)) (model : Model L)
  : M (world L) (tensor * tensor * Q) :=
  best_f <- lift (tensor_max (train_obj g)) ;;
  optimize_mfkg_and_get_observation L SMOKE_TEST
    (qExpectedImprovement model best_f).

End Phases.

(** *** Where a run can fail *)

(** For every function of the notebook, the calls it makes and the
    conditions under which each is reached: the calls before it have
    returned.  [..._raises ... w e] says that one of these calls, reached
    from world [w], raises [e]. *)
Section CallSites.
Variable L : BoTorch.
Variable SMOKE_TEST : option string.
Variable e : exn.

Inductive generate_initial_data_raises (n : nat) (w : world L) : Prop :=
| raises_torch_rand :
    torch_rand L n 6 w = Raise e ->
    generate_initial_data_raises n w
| raises_torch_randint X w1 :
    torch_rand L n 6 w = Ok (X, w1) ->
    torch_randint L 3 n 1 w1 = Raise e ->
    generate_initial_data_raises n w
| raises_fidelity_indexing X w1 I w2 :
    torch_rand L n 6 w = Ok (X, w1) ->
    torch_randint L 3 n 1 w1 = Ok (I, w2) ->
    index_select fidelities I = Raise e ->
    generate_initial_data_raises n w
| raises_initial_cat X w1 I w2 F :
    torch_rand L n 6 w = Ok (X, w1) ->
    torch_randint L 3 n 1 w1 = Ok (I, w2) ->
    index_select fidelities I = Ok F ->
    torch_cat_dim1 X F = Raise e ->
    generate_initial_data_raises n w
| raises_initial_evaluation X w1 I w2 F X' :
    torch_rand L n 6 w = Ok (X, w1) ->
    torch_randint L 3 n 1 w1 = Ok (I, w2) ->
    index_select fidelities I = Ok F ->
    torch_cat_dim1 X F = Ok X' ->
    problem L X' = Raise e ->
    generate_initial_data_raises n w.

Inductive get_mfkg_raises (model : Model L) (w : world L) : Prop :=
| raises_current_value :
    optimize_acqf L
      (FixedFeatureAcquisitionFunction (PosteriorMean model) 7 [6%nat] [1])
      (drop_last_column bounds) 1
      (if negb (truthy SMOKE_TEST) then 10 else 2)
      (if negb (truthy SMOKE_TEST) then 1024 else 4)
      {| batch_limit := 10; maxiter := 200 |} w = Raise e ->
    get_mfkg_raises model w.

Inductive kg_observation_raises (acq : Acqf (Model L)) (w : world L) : Prop :=
| raises_initial_conditions :
    gen_one_shot_kg_initial_conditions L acq bounds 4 10 512 w = Raise e ->
    kg_observation_raises acq w
| raises_mixed_optimization ic w1 :
    gen_one_shot_kg_initial_conditions L acq bounds 4 10 512 w = Ok (ic, w1) ->
    optimize_acqf_mixed L acq bounds
      [[(6%nat, 1 # 2)]; [(6%nat, 3 # 4)]; [(6%nat, 1)]]
      4 (NUM_RESTARTS SMOKE_TEST) (RAW_SAMPLES SMOKE_TEST) ic
      {| batch_limit := 5; maxiter := 200 |} w1 = Raise e ->
    kg_observation_raises acq w
| raises_kg_cost ic w1 X v w2 :
    gen_one_shot_kg_initial_conditions L acq bounds 4 10 512 w = Ok (ic, w1) ->
    optimize_acqf_mixed L acq bounds
      [[(6%nat, 1 # 2)]; [(6%nat, 3 # 4)]; [(6%nat, 1)]]
      4 (NUM_RESTARTS SMOKE_TEST) (RAW_SAMPLES SMOKE_TEST) ic
      {| batch_limit := 5; maxiter := 200 |} w1 = Ok (X, v, w2) ->
    cost_forward cost_model X = Raise e ->
    kg_observation_raises acq w
| raises_kg_evaluation ic w1 X v w2 costs :
    gen_one_shot_kg_initial_conditions L acq bounds 4 10 512 w = Ok (ic, w1) ->
    optimize_acqf_mixed L acq bounds
      [[(6%nat, 1 # 2)]; [(6%nat, 3 # 4)]; [(6%nat, 1)]]
      4 (NUM_RESTARTS SMOKE_TEST) (RAW_SAMPLES SMOKE_TEST) ic
      {| batch_limit := 5; maxiter := 200 |} w1 = Ok (X, v, w2) ->
    cost_forward cost_model X = Ok costs ->
    problem L X = Raise e ->
    kg_observation_raises acq w.

Inductive ei_observation_raises (acq : Acqf (Model L)) (w : world L) : Prop :=
| raises_ei_optimization :
    optimize_acqf L acq (drop_last_column bounds) 4 10 512
      {| batch_limit := 5; maxiter := 200 |} w = Raise e ->
    ei_observation_raises acq w
| raises_ei_fixed_feature X v w1 :
    optimize_acqf L acq (drop_last_column bounds) 4 10 512
      {| batch_limit := 5; maxiter := 200 |} w = Ok (X, v, w1) ->
    construct_X_full acq X = Raise e ->
    ei_observation_raises acq w
| raises_ei_cost X v w1 X' :
    optimize_acqf L acq (drop_last_column bounds) 4 10 512
      {| batch_limit := 5; maxiter := 200 |} w = Ok (X, v, w1) ->
    construct_X_full acq X = Ok X' ->
    cost_forward cost_model X' = Raise e ->
    ei_observation_raises acq w
| raises_ei_evaluation X v w1 X' costs :
    optimize_acqf L acq (drop_last_column bounds) 4 10 512
      {| batch_limit := 5; maxiter := 200 |} w = Ok (X, v, w1) ->
    construct_X_full acq X = Ok X' ->
    cost_forward cost_model X' = Ok costs ->
    problem L X' = Raise e ->
    ei_observation_raises acq w.

Inductive get_recommendation_raises (model : Model L) (w : world L) : Prop :=
| raises_posterior_mean_optimization :
    optimize_acqf L
      (FixedFeatureAcquisitionFunction (PosteriorMean model) 7 [6%nat] [1])
      (drop_last_column bounds) 1 10 512
      {| batch_limit := 5; maxiter := 200 |} w = Raise e ->
    get_recommendation_raises model w
| raises_recommendation_evaluation X v w1 :
    optimize_acqf L
      (FixedFeatureAcquisitionFunction (PosteriorMean model) 7 [6%nat] [1])
      (drop_last_column bounds) 1 10 512
      {| batch_limit := 5; maxiter := 200 |} w = Ok (X, v, w1) ->
    problem L (map (fill_row 7 0 [6%nat] [1]) X) = Raise e ->
    get_recommendation_raises model w.

(** One pass of a loop around the acquisition stage [acquire], whose own
    failures are [acquire_raises]. *)
Inductive iteration_raises
  (acquire : Globals (Model L) -> Model L -> M (world L) (tensor * tensor * Q))
  (acquire_raises : Globals (Model L) -> Model L -> world L -> Prop)
  (g : Globals (Model L)) (w : world L) : Prop :=
| raises_model_construction :
    SingleTaskMultiFidelityGP L (train_x g) (train_obj g) (Standardize 1) 6 w
    = Raise e ->
    iteration_raises acquire acquire_raises g w
| raises_model_fitting mdl w1 :
    SingleTaskMultiFidelityGP L (train_x g) (train_obj g) (Standardize 1) 6 w
    = Ok (mdl, w1) ->
    fit_gpytorch_model L
      (ExactMarginalLogLikelihood (likelihood_of mdl) mdl) w1 = Raise e ->
    iteration_raises acquire acquire_raises g w
| raises_acquisition mdl w1 mll w2 :
    SingleTaskMultiFidelityGP L (train_x g) (train_obj g) (Standardize 1) 6 w
    = Ok (mdl, w1) ->
    fit_gpytorch_model L
      (ExactMarginalLogLikelihood (likelihood_of mdl) mdl) w1 = Ok (mll, w2) ->
    acquire_raises g mdl w2 ->
    iteration_raises acquire acquire_raises g w
| raises_train_x_cat mdl w1 mll w2 new_x new_obj cost w3 :
    SingleTaskMultiFidelityGP L (train_x g) (train_obj g) (Standardize 1) 6 w
    = Ok (mdl, w1) ->
    fit_gpytorch_model L
      (ExactMarginalLogLikelihood (likelihood_of mdl) mdl) w1 = Ok (mll, w2) ->
    acquire g mdl w2 = Ok (new_x, new_obj, cost, w3) ->
    torch_cat (train_x g) new_x = Raise e ->
    iteration_raises acquire acquire_raises g w
| raises_train_obj_cat mdl w1 mll w2 new_x new_obj cost w3 X' :
    SingleTaskMultiFidelityGP L (train_x g) (train_obj g) (Standardize 1) 6 w
    = Ok (mdl, w1) ->
    fit_gpytorch_model L
      (ExactMarginalLogLikelihood (likelihood_of mdl) mdl) w1 = Ok (mll, w2) ->
    acquire g mdl w2 = Ok (new_x, new_obj, cost, w3) ->
    torch_cat (train_x g) new_x = Ok X' ->
    torch_cat (train_obj g) new_obj = Raise e ->
    iteration_raises acquire acquire_raises g w.

(** The acquisition stage of the multi-fidelity loop. *)
Inductive kg_acquire_raises (g : Globals (Model L)) (model : Model L)
  (w : world L) : Prop :=
| raises_in_get_mfkg :
    get_mfkg_raises model w ->
    kg_acquire_raises g model w
| raises_in_kg_observation acq w1 :
    get_mfkg L SMOKE_TEST model w = Ok (acq, w1) ->
    kg_observation_raises acq w1 ->
    kg_acquire_raises g model w.

(** The acquisition stage of the baseline loop. *)
Inductive ei_acquire_raises (g : Globals (Model L)) (model : Model L)
  (w : world L) : Prop :=
| raises_incumbent :
    tensor_max (train_obj g) = Raise e ->
    ei_acquire_raises g model w
| raises_in_ei_observation best_f :
    tensor_max (train_obj g) = Ok best_f ->
    ei_observation_raises (get_ei L model best_f) w ->
    ei_acquire_raises g model w.

(** A phase: the initial data, some pass of the loop after the passes
    before it have returned, or the recommendation. *)
Inductive phase_raises
  (body : Globals (Model L) -> M (world L) (Globals (Model L)))
  (body_raises : Globals (Model L) -> world L -> Prop)
  (g0 : Globals (Model L)) (w : world L) : Prop :=
| raises_in_initial_data :
    generate_initial_data_raises 16 w ->
    phase_raises body body_raises g0 w
| raises_in_pass X0 Y0 w1 k gk wk :
    generate_initial_data L 16 w = Ok (X0, Y0, w1) ->
    (k < N_ITER SMOKE_TEST)%nat ->
    for_range k body (Build_Globals X0 Y0 0 (model g0)) w1 = Ok (gk, wk) ->
    body_raises gk wk ->
    phase_raises body body_raises g0 w
| raises_in_recommendation X0 Y0 w1 g' w2 mdl :
    generate_initial_data L 16 w = Ok (X0, Y0, w1) ->
    for_range (N_ITER SMOKE_TEST) body (Build_Globals X0 Y0 0 (model g0)) w1
    = Ok (g', w2) ->
    model g' = Some mdl ->
    get_recommendation_raises mdl w2 ->
    phase_raises body body_raises g0 w.

Definition kg_run_raises : Globals (Model L) -> world L -> Prop :=
  phase_raises (kg_iteration L SMOKE_TEST)
    (iteration_raises (kg_acquire L SMOKE_TEST) kg_acquire_raises).

Definition ei_run_raises : Globals (Model L) -> world L -> Prop :=
  phase_raises (ei_iteration L)
    (iteration_raises (ei_acquire L) ei_acquire_raises).

(** The notebook: the multi-fidelity phase, or the baseline after it. *)
Inductive notebook_raises (w : world L) : Prop :=
| raises_in_kg_run :
    kg_run_raises (Build_Globals [] [] 0 None) w ->
    notebook_raises w
| raises_in_ei_run kg w1 :
    kg_run L SMOKE_TEST (Build_Globals [] [] 0 None) w = Ok (kg, w1) ->
    ei_run_raises (snd kg) w1 ->
    notebook_raises w.

End CallSites.

(** *** Further notions *)

(** Every row of [Y] is the value of the test function at the row of [X]
    with the same index. *)
Definition observed (L : BoTorch) (X Y : tensor) : Prop :=
  Forall2 (fun x y => exists v, evaluate_true L x = Ok v /\ y = [v]) X Y.

(** A training set the loops can extend: 7 columns of inputs, 1 column of
    observations, and at least one observation. *)
Definition well_shaped {Mdl} (g : Globals Mdl) : Prop :=
  Forall (fun x => length x = 7%nat) (train_x g) /\
  Forall (fun y => length y = 1%nat) (train_obj g) /\
  train_obj g <> [].

(** *** Where the library can fail in a run *)

(** The calls of the notebook into the library, with the conditions under
    which each is reached, as in [CallSites] but without the notebook's own
    tensor code (indexing, concatenation, cost, maximum, fixed features):
    [..._library_raises ... w e] says that a library call of the function,
    reached from world [w] after the calls before it have returned, raises
    [e]. *)
Section LibraryCallSites.
Variable L : BoTorch.
Variable SMOKE_TEST : option string.
Variable e : exn.

Inductive generate_initial_data_library_raises (n : nat) (w : world L)
  : Prop :=
| library_torch_rand :
    torch_rand L n 6 w = Raise e ->
    generate_initial_data_library_raises n w
| library_torch_randint X w1 :
    torch_rand L n 6 w = Ok (X, w1) ->
    torch_randint L 3 n 1 w1 = Raise e ->
    generate_initial_data_library_raises n w
| library_initial_evaluation X w1 I w2 F X' :
    torch_rand L n 6 w = Ok (X, w1) ->
    torch_randint L 3 n 1 w1 = Ok (I, w2) ->
    index_select fidelities I = Ok F ->
    torch_cat_dim1 X F = Ok X' ->
    problem L X' = Raise e ->
    generate_initial_data_library_raises n w.

Inductive kg_observation_library_raises (acq : Acqf (Model L)) (w : world L)
  : Prop :=
| library_initial_conditions :
    gen_one_shot_kg_initial_conditions L acq bounds 4 10 512 w = Raise e ->
    kg_observation_library_raises acq w
| library_mixed_optimization ic w1 :
    gen_one_shot_kg_initial_conditions L acq bounds 4 10 512 w = Ok (ic, w1) ->
    optimize_acqf_mixed L acq bounds
      [[(6%nat, 1 # 2)]; [(6%nat, 3 # 4)]; [(6%nat, 1)]]
      4 (NUM_RESTARTS SMOKE_TEST) (RAW_SAMPLES SMOKE_TEST) ic
      {| batch_limit := 5; maxiter := 200 |} w1 = Raise e ->
    kg_observation_library_raises acq w
| library_kg_evaluation ic w1 X v w2 :
    gen_one_shot_kg_initial_conditions L acq bounds 4 10 512 w = Ok (ic, w1) ->
    optimize_acqf_mixed L acq bounds
      [[(6%nat, 1 # 2)]; [(6%nat, 3 # 4)]; [(6%nat, 1)]]
      4 (NUM_RESTARTS SMOKE_TEST) (RAW_SAMPLES SMOKE_TEST) ic
      {| batch_limit := 5; maxiter := 200 |} w1 = Ok (X, v, w2) ->
    problem L X = Raise e ->
    kg_observation_library_raises acq w.

Inductive ei_observation_library_raises (acq : Acqf (Model L)) (w : world L)
  : Prop :=
| library_ei_optimization :
    optimize_acqf L acq (drop_last_column bounds) 4 10 512
      {| batch_limit := 5; maxiter := 200 |} w = Raise e ->
    ei_observation_library_raises acq w
| library_ei_evaluation X v w1 X' :
    optimize_acqf L acq (drop_last_column bounds) 4 10 512
      {| batch_limit := 5; maxiter := 200 |} w = Ok (X, v, w1) ->
    construct_X_full acq X = Ok X' ->
    problem L X' = Raise e ->
    ei_observation_library_raises acq w.

Inductive kg_acquire_library_raises (g : Globals (Model L)) (model : Model L)
  (w : world L) : Prop :=
| library_in_get_mfkg :
    get_mfkg_raises L SMOKE_TEST e model w ->
    kg_acquire_library_raises g model w
| library_in_kg_observation acq w1 :
    get_mfkg L SMOKE_TEST model w = Ok (acq, w1) ->
    kg_observation_library_raises acq w1 ->
    kg_acquire_library_raises g model w.

Inductive ei_acquire_library_raises (g : Globals (Model L)) (model : Model L)
  (w : world L) : Prop :=
| library_in_ei_observation best_f :
    tensor_max (train_obj g) = Ok best_f ->
    ei_observation_library_raises (get_ei L model best_f) w ->
    ei_acquire_library_raises g model w.

(** One pass: the model constructor, the fitting, or a library call of the
    acquisition stage. *)
Inductive iteration_library_raises
  (acquire_raises : Globals (Model L) -> Model L -> world L -> Prop)
  (g : Globals (Model L)) (w : world L) : Prop :=
| library_model_construction :
    SingleTaskMultiFidelityGP L (train_x g) (train_obj g) (Standardize 1) 6 w
    = Raise e ->
    iteration_library_raises acquire_raises g w
| library_model_fitting mdl w1 :
    SingleTaskMultiFidelityGP L (train_x g) (train_obj g) (Standardize 1) 6 w
    = Ok (mdl, w1) ->
    fit_gpytorch_model L
      (ExactMarginalLogLikelihood (likelihood_of mdl) mdl) w1 = Raise e ->
    iteration_library_raises acquire_raises g w
| library_acquisition mdl w1 mll w2 :
    SingleTaskMultiFidelityGP L (train_x g) (train_obj g) (Standardize 1) 6 w
    = Ok (mdl, w1) ->
    fit_gpytorch_model L
      (ExactMarginalLogLikelihood (likelihood_of mdl) mdl) w1 = Ok (mll, w2) ->
    acquire_raises g mdl w2 ->
    iteration_library_raises acquire_raises g w.

(** A phase: a library call of the initial data, of some pass after the
    passes before it have returned, or of the recommendation. *)
Inductive phase_library_raises
  (body : Globals (Model L) -> M (world L) (Globals (Model L)))
  (body_raises : Globals (Model L) -> world L -> Prop)
  (g0 : Globals (Model L)) (w : world L) : Prop :=
| library_in_initial_data :
    generate_initial_data_library_raises 16 w ->
    phase_library_raises body body_raises g0 w
| library_in_pass X0 Y0 w1 k gk wk :
    generate_initial_data L 16 w = Ok (X0, Y0, w1) ->
    (k < N_ITER SMOKE_TEST)%nat ->
    for_range k body (Build_Globals X0 Y0 0 (model g0)) w1 = Ok (gk, wk) ->
    body_raises gk wk ->
    phase_library_raises body body_raises g0 w
| library_in_recommendation X0 Y0 w1 g' w2 mdl :
    generate_initial_data L 16 w = Ok (X0, Y0, w1) ->
    for_range (N_ITER SMOKE_TEST) body (Build_Globals X0 Y0 0 (model g0)) w1
    = Ok (g', w2) ->
    model g' = Some mdl ->
    get_recommendation_raises L e mdl w2 ->
    phase_library_raises body body_raises g0 w.

Definition kg_iteration_library_raises
  : Globals (Model L) -> world L -> Prop :=
  iteration_library_raises kg_acquire_library_raises.

Definition ei_iteration_library_raises
  : Globals (Model L) -> world L -> Prop :=
  iteration_library_raises ei_acquire_library_raises.

(** The notebook: a library call of the multi-fidelity phase, or of the
    baseline after the multi-fidelity phase has returned. *)
Inductive notebook_library_raises (w : world L) : Prop :=
| library_in_kg_run :
    phase_library_raises (kg_iteration L SMOKE_TEST)
      kg_iteration_library_raises (Build_Globals [] [] 0 None) w ->
    notebook_library_raises w
| library_in_ei_run kg w1 :
    kg_run L SMOKE_TEST (Build_Globals [] [] 0 None) w = Ok (kg, w1) ->
    phase_library_raises (ei_iteration L)
      ei_iteration_library_raises (snd kg) w1 ->
    notebook_library_raises w.

End LibraryCallSites.

(* ================================================================== *)
(** ** Reasoning about runs *)

Lemma bind_ok_inv W A B (c : M W A) (k : A -> M W B) w r :
  bind c k w = Ok r ->
  exists a w1, c w = Ok (a, w1) /\ k a w1 = Ok r.
Proof.
  unfold bind. destruct (c w) as [[a w1] | e]; [eauto | discriminate].
Qed.

Lemma bind_raise W A B (c : M W A) (k : A -> M W B) w e :
  c w = Raise e -> bind c k w = Raise e.
Proof. unfold bind. intros ->. reflexivity. Qed.

Lemma bind_raise_inv W A B (c : M W A) (k : A -> M W B) w e :
  bind c k w = Raise e ->
  c w = Raise e \/ exists a w1, c w = Ok (a, w1) /\ k a w1 = Raise e.
Proof.
  unfold bind. destruct (c w) as [[a w1] | e']; [eauto | ].
  intros [= ->]. now left.
Qed.

Lemma lift_ok_inv W A (r : result A) (w : W) a w' :
  lift r w = Ok (a, w') -> r = Ok a /\ w' = w.
Proof. unfold lift. destruct r; [intros [= -> ->]; auto | discriminate]. Qed.

Lemma ret_ok_inv W A (a : A) (w : W) a' w' :
  ret a w = Ok (a', w') -> a' = a /\ w' = w.
Proof. unfold ret. intros [= -> ->]. auto. Qed.

(** Decompose a successful run of a sequence of binds into its steps. *)
Ltac run_inv H :=
  lazymatch type of H with
  | bind _ _ _ = Ok _ =>
      let a := fresh "a" in
      let w := fresh "w" in
      let E := fresh "E" in
      apply bind_ok_inv in H; destruct H as (a & w & E & H);
      cbv beta in H; run_inv E; run_inv H
  | lift _ _ = Ok _ =>
      let E := fresh "E" in
      apply lift_ok_inv in H; destruct H as [H E]; subst
  | ret _ _ = Ok _ =>
      let E := fresh "E" in
      apply ret_ok_inv in H; destruct H as [H E]; subst
  | (let '(_, _) := ?x in _) _ = Ok _ =>
      destruct x; run_inv H
  | (let (_, _) := ?x in _) _ = Ok _ =>
      destruct x; run_inv H
  | _ => idtac
  end.

(** An invariant of the loop body is an invariant of the loop. *)
Lemma for_range_inv W S (body : S -> M W S) (P : nat -> S -> Prop) :
  (forall k st w st' w',
      P k st -> body st w = Ok (st', w') -> P (Datatypes.S k) st') ->
  forall n k st w st' w',
    P k st -> for_range n body st w = Ok (st', w') -> P (n + k)%nat st'.
Proof.
  intros Hstep. induction n as [| n IH]; intros k st w st' w' HP Hrun.
  - cbn in Hrun. apply ret_ok_inv in Hrun. destruct Hrun; subst. exact HP.
  - cbn in Hrun. apply bind_ok_inv in Hrun.
    destruct Hrun as (st1 & w1 & Hb & Hrun).
    replace (Datatypes.S n + k)%nat with (n + Datatypes.S k)%nat by lia.
    eapply IH; eauto.
Qed.

Lemma for_range_S W S (body : S -> M W S) n st (w : W) :
  for_range (Datatypes.S n) body st w
  = bind (for_range n body st) body w.
Proof.
  revert st w. induction n as [| n IH]; intros st w.
  - cbn. unfold bind, ret. destruct (body st w) as [[st1 w1] | e]; reflexivity.
  - change (for_range (Datatypes.S (Datatypes.S n)) body st w)
      with (bind (body st) (for_range (Datatypes.S n) body) w).
    change (for_range (Datatypes.S n) body st)
      with (bind (body st) (for_range n body)).
    unfold bind. cbv beta.
    destruct (body st w) as [[st1 w1] | e]; [ | reflexivity].
    rewrite IH. reflexivity.
Qed.

Lemma mapR_ok A B (f : A -> result B) l l' :
  mapR f l = Ok l' -> Forall2 (fun a b => f a = Ok b) l l'.
Proof.
  revert l'. induction l as [| a l IH]; intros l' H; cbn in H.
  - injection H as <-. constructor.
  - destruct (f a) as [b | e] eqn:Efa; [ | discriminate].
    destruct (mapR f l) as [bs | e]; [ | discriminate].
    injection H as <-. constructor; auto.
Qed.

Lemma mapR_length A B (f : A -> result B) l l' :
  mapR f l = Ok l' -> length l' = length l.
Proof.
  intros H. apply mapR_ok in H. symmetry. eapply Forall2_length; eauto.
Qed.

Lemma mapR_ext_in A B (f g : A -> result B) l :
  (forall a, In a l -> f a = g a) -> mapR f l = mapR g l.
Proof.
  induction l as [| a l IH]; intros H; cbn; [reflexivity | ].
  rewrite (H a (or_introl eq_refl)), IH; [reflexivity | ].
  intros b Hb. apply H. now right.
Qed.

Lemma torch_cat_ok a b c :
  torch_cat a b = Ok c -> c = a ++ b /\ same_width (a ++ b) = true.
Proof.
  unfold torch_cat. destruct (same_width (a ++ b)); [ | discriminate].
  intros [= <-]. auto.
Qed.

Lemma torch_cat_dim1_ok a b c :
  torch_cat_dim1 a b = Ok c -> c = zip_rows a b /\ length a = length b.
Proof.
  unfold torch_cat_dim1. destruct (Nat.eqb_spec (length a) (length b));
    [ | discriminate].
  intros [= <-]. auto.
Qed.

(** *** The steps of one pass through either loop *)

Section Iterations.
Variable L : BoTorch.
Variable SMOKE_TEST : option string.

Lemma kg_observation_inv acq w new_x new_obj cost w' :
  optimize_mfkg_and_get_observation L SMOKE_TEST acq w
  = Ok (new_x, new_obj, cost, w') ->
  exists ic w1 v costs y,
    gen_one_shot_kg_initial_conditions L acq bounds 4 10 512 w = Ok (ic, w1) /\
    optimize_acqf_mixed L acq bounds
      [[(6%nat, 1 # 2)]; [(6%nat, 3 # 4)]; [(6%nat, 1)]]
      4 (NUM_RESTARTS SMOKE_TEST) (RAW_SAMPLES SMOKE_TEST) ic
      {| batch_limit := 5; maxiter := 200 |} w1 = Ok (new_x, v, w') /\
    cost_forward cost_model new_x = Ok costs /\
    cost = tensor_sum costs /\
    problem L new_x = Ok y /\
    new_obj = unsqueeze y.
Proof.
  unfold optimize_mfkg_and_get_observation. intros H. run_inv H.
  injection H as -> -> ->. do 5 eexists. repeat split; eauto.
Qed.

Lemma kg_iteration_inv g w g' w' :
  kg_iteration L SMOKE_TEST g w = Ok (g', w') ->
  exists mdl w0 mll w1 acq w2 new_x new_obj cost,
    SingleTaskMultiFidelityGP L (train_x g) (train_obj g) (Standardize 1) 6 w
    = Ok (mdl, w0) /\
    fit_gpytorch_model L
      (ExactMarginalLogLikelihood (likelihood_of mdl) mdl) w0 = Ok (mll, w1) /\
    get_mfkg L SMOKE_TEST mdl w1 = Ok (acq, w2) /\
    optimize_mfkg_and_get_observation L SMOKE_TEST acq w2
    = Ok (new_x, new_obj, cost, w') /\
    g' = Build_Globals (train_x g ++ new_x) (train_obj g ++ new_obj)
           (cumulative_cost g + cost) (Some mdl) /\
    same_width (train_x g ++ new_x) = true /\
    same_width (train_obj g ++ new_obj) = true.
Proof.
  unfold kg_iteration, initialize_model. intros H. run_inv H.
  repeat match goal with
         | H : torch_cat _ _ = Ok _ |- _ => apply torch_cat_ok in H as [-> ?]
         end.
  do 9 eexists. repeat split; eauto.
Qed.

Lemma ei_observation_inv acq w new_x new_obj cost w' :
  optimize_ei_and_get_observation L acq w = Ok (new_x, new_obj, cost, w') ->
  exists X v costs y,
    optimize_acqf L acq (drop_last_column bounds) 4 10 512
      {| batch_limit := 5; maxiter := 200 |} w = Ok (X, v, w') /\
    construct_X_full acq X = Ok new_x /\
    cost_forward cost_model new_x = Ok costs /\
    cost = tensor_sum costs /\
    problem L new_x = Ok y /\
    new_obj = unsqueeze y.
Proof.
  unfold optimize_ei_and_get_observation. intros H. run_inv H.
  injection H as -> -> ->. do 4 eexists. repeat split; eauto.
Qed.

Lemma ei_iteration_inv g w g' w' :
  ei_iteration L g w = Ok (g', w') ->
  exists mdl w0 mll w1 best_f new_x new_obj cost,
    SingleTaskMultiFidelityGP L (train_x g) (train_obj g) (Standardize 1) 6 w
    = Ok (mdl, w0) /\
    fit_gpytorch_model L
      (ExactMarginalLogLikelihood (likelihood_of mdl) mdl) w0 = Ok (mll, w1) /\
    tensor_max (train_obj g) = Ok best_f /\
    optimize_ei_and_get_observation L (get_ei L mdl best_f) w1
    = Ok (new_x, new_obj, cost, w') /\
    g' = Build_Globals (train_x g ++ new_x) (train_obj g ++ new_obj)
           (cumulative_cost g + cost) (Some mdl) /\
    same_width (train_x g ++ new_x) = true /\
    same_width (train_obj g ++ new_obj) = true.
Proof.
  unfold ei_iteration, initialize_model. intros H. run_inv H.
  repeat match goal with
         | H : torch_cat _ _ = Ok _ |- _ => apply torch_cat_ok in H as [-> ?]
         end.
  do 8 eexists. repeat split; eauto.
Qed.

End Iterations.

(** *** Sums and costs *)

Lemma Qsum_app l1 l2 : Qsum (l1 ++ l2) == Qsum l1 + Qsum l2.
Proof.
  induction l1 as [| a l1 IH].
  - change (Qsum l2 == 0 + Qsum l2). ring.
  - change (a + Qsum (l1 ++ l2) == a + Qsum l1 + Qsum l2). rewrite IH. ring.
Qed.

Lemma Qsum_cons a l : Qsum (a :: l) = a + Qsum l.
Proof. reflexivity. Qed.

Lemma Qsum_nil : Qsum [] = 0.
Proof. reflexivity. Qed.

Lemma total_cost_snoc bs b :
  total_cost (bs ++ [b]) == total_cost bs + batch_cost b.
Proof.
  unfold total_cost. rewrite map_app, Qsum_app.
  change (map batch_cost [b]) with [batch_cost b].
  rewrite Qsum_cons, Qsum_nil. ring.
Qed.

(** The cost model charges every point 5 plus its fidelity, and needs the
    fidelity coordinate to be present. *)
Lemma cost_forward_rows X costs :
  cost_forward cost_model X = Ok costs ->
  Forall2 (fun x c => exists s, nth_error x 6 = Some s /\ c = [5 + (s * 1 + 0)])
          X costs.
Proof.
  intros H. apply mapR_ok in H.
  eapply Forall2_impl; [ | exact H]. intros x c Hc. cbv beta in Hc.
  cbv [cost_model fidelity_weights fixed_cost weighted_fidelities] in Hc.
  destruct (nth_error x 6) as [s |]; [ | discriminate].
  injection Hc as <-. eauto.
Qed.

Lemma cost_forward_batch X costs :
  cost_forward cost_model X = Ok costs ->
  tensor_sum costs == batch_cost X /\
  Forall (fun x => (6 < length x)%nat) X /\
  shape costs (length X) 1.
Proof.
  intros H. apply cost_forward_rows in H. unfold shape.
  induction H as [| x c X costs (s & Es & ->) _ (Hsum & Hlen & Hn & Hw)].
  - repeat split; auto.
  - assert (Hx : (6 < length x)%nat).
    { apply nth_error_Some. congruence. }
    repeat split.
    + unfold tensor_sum, batch_cost in *.
      change (concat ([5 + (s * 1 + 0)] :: costs))
        with ((5 + (s * 1 + 0)) :: concat costs).
      change (map point_cost (x :: X)) with (point_cost x :: map point_cost X).
      rewrite !Qsum_cons, Hsum. unfold point_cost, fidelity_of.
      rewrite (nth_error_nth x 6 0 Es). ring.
    + constructor; assumption.
    + cbn [length]. now rewrite Hn.
    + constructor; [reflexivity | assumption].
Qed.

Lemma problem_length L X y : problem L X = Ok y -> length y = length X.
Proof. apply mapR_length. Qed.

Lemma unsqueeze_shape y : shape (unsqueeze y) (length y) 1.
Proof.
  unfold shape, unsqueeze. split; [apply length_map | ].
  apply Forall_forall. intros r Hr. apply in_map_iff in Hr.
  destruct Hr as (v & <- & _). reflexivity.
Qed.

(** *** Points inside the bounds *)

Ltac inv_Forall2 :=
  repeat match goal with
         | H : Forall2 _ (_ :: _) _ |- _ => inversion H; subst; clear H
         | H : Forall2 _ _ (_ :: _) |- _ => inversion H; subst; clear H
         | H : Forall2 _ [] _ |- _ => inversion H; subst; clear H
         | H : Forall2 _ _ [] |- _ => inversion H; subst; clear H
         end.

(** A point inside the 7-dimensional bounds that carries one of the three
    fixed fidelities is a valid training input. *)
Lemma mixed_candidate_valid x :
  in_bounds bounds x ->
  Exists (fun ff => has_fixed ff x)
         [[(6%nat, 1 # 2)]; [(6%nat, 3 # 4)]; [(6%nat, 1)]] ->
  valid_point x.
Proof.
  unfold in_bounds, bounds, problem_dim. cbn [repeat]. intros [Hlo Hhi] Hff.
  inv_Forall2.
  assert (Hf : In (fidelity_of [y; y0; y1; y2; y3; y4; y5]) fidelities).
  { rewrite !Exists_cons, Exists_nil in Hff. unfold has_fixed in Hff.
    unfold fidelity_of, fidelities. cbn [nth].
    destruct Hff as [Hff | [Hff | [Hff | []]]];
      apply Forall_inv in Hff; cbn in Hff; injection Hff as ->; cbn; auto. }
  repeat split; [ | exact Hf]. cbn [firstn].
  repeat constructor; assumption.
Qed.

(** A point inside the 6-dimensional design bounds, completed by the fixed
    feature of the notebook's fixed-feature acquisition functions, is a
    valid training input at fidelity 1. *)
Lemma fixed_candidate_valid x :
  in_bounds (drop_last_column bounds) x ->
  fill_row 7 0 [6%nat] [1] x = x ++ [1] /\
  length x = 6%nat /\
  valid_point (x ++ [1]) /\
  fidelity_of (x ++ [1]) = 1.
Proof.
  unfold in_bounds, bounds, problem_dim, drop_last_column.
  cbn [repeat map removelast]. intros [Hlo Hhi]. inv_Forall2.
  repeat split; cbn [firstn app]; unfold fidelity_of, fidelities; cbn; auto.
  repeat constructor; assumption.
Qed.

Lemma zip_rows_valid X F :
  Forall (fun r => length r = 6%nat /\ Forall (fun v => 0 <= v /\ v < 1) r) X ->
  Forall (fun r => exists f, r = [f] /\ In f fidelities) F ->
  Forall valid_point (zip_rows X F).
Proof.
  intros HX. revert F. induction HX as [| r X [Hlen Hr] _ IH]; intros F HF.
  - constructor.
  - destruct HF as [| fr F (f & -> & Hf) HF]; cbn [zip_rows]; constructor; auto.
    do 7 (destruct r as [| ? r]; try discriminate).
    repeat split; cbn [firstn app]; [ | exact Hf].
    repeat match goal with
           | H : Forall _ (_ :: _) |- _ => inversion H; subst; clear H
           end.
    repeat constructor;
      repeat match goal with H : _ /\ _ |- _ => destruct H end;
      auto using Qlt_le_weak.
Qed.

Lemma zip_rows_length X F :
  length X = length F -> length (zip_rows X F) = length X.
Proof.
  revert F. induction X as [| r X IH]; intros [| f F] H; cbn in *;
    try discriminate; auto.
Qed.

Lemma index_select_fidelities I F :
  index_select fidelities I = Ok F ->
  Forall (fun r => length r = 1%nat /\ Forall (fun i => (i < 3)%nat) r) I ->
  length F = length I /\
  Forall (fun r => exists f, r = [f] /\ In f fidelities) F.
Proof.
  unfold index_select. intros H HI. split; [eapply mapR_length; eauto | ].
  apply mapR_ok in H. induction H as [| r fr I F Hr _ IH]; [constructor | ].
  inversion HI as [| ? ? [Hlen Hi] HI']; subst. constructor; auto.
  destruct r as [| i [| ? ?]]; try discriminate. cbn in Hr.
  destruct (nth_error fidelities i) as [f |] eqn:Ef; [ | discriminate].
  injection Hr as <-. exists f. split; [reflexivity | ].
  eapply nth_error_In; eauto.
Qed.

(** *** Initial data *)

Lemma generate_initial_data_spec L (HL : BoTorchSpec L) n w X Y w' :
  generate_initial_data L n w = Ok (X, Y, w') ->
  length X = n /\ Forall valid_point X /\ shape Y n 1.
Proof.
  unfold generate_initial_data. intros H. run_inv H. injection H as -> ->.
  match goal with
  | H : torch_rand _ _ _ _ = Ok _ |- _ =>
      apply (torch_rand_spec HL) in H as [Hn HX]
  end.
  match goal with
  | H : torch_randint _ _ _ _ _ = Ok _ |- _ =>
      apply (torch_randint_spec HL) in H as [Hi HI]
  end.
  match goal with
  | H : index_select _ _ = Ok _ |- _ =>
      apply index_select_fidelities in H as [Hf HF]; [ | exact HI]
  end.
  match goal with
  | H : torch_cat_dim1 _ _ = Ok _ |- _ =>
      apply torch_cat_dim1_ok in H as [-> Hlen]
  end.
  match goal with
  | H : problem _ _ = Ok _ |- _ => apply problem_length in H as Hy
  end.
  rewrite zip_rows_length in Hy by congruence.
  split; [ | split].
  - rewrite zip_rows_length by congruence. exact Hn.
  - apply zip_rows_valid; assumption.
  - rewrite <- Hn, <- Hy. apply unsqueeze_shape.
Qed.

(** *** What one pass through a loop adds *)

Lemma kg_iteration_step L (HL : BoTorchSpec L) smoke g w g' w' :
  kg_iteration L smoke g w = Ok (g', w') ->
  exists new_x new_obj, extends_by valid_point g g' new_x new_obj.
Proof.
  intros H. apply kg_iteration_inv in H.
  destruct H as (mdl & w0 & mll & w1 & acq & w2 & new_x & new_obj & cost
                 & _ & _ & _ & Hobs & -> & _ & _).
  apply kg_observation_inv in Hobs.
  destruct Hobs as (ic & w3 & v & costs & y & _ & Hopt & Hcost & -> & Hy & ->).
  apply (optimize_acqf_mixed_spec HL) in Hopt as [Hq Hin].
  apply cost_forward_batch in Hcost as (Hsum & _ & _).
  apply problem_length in Hy.
  exists new_x, (unsqueeze y). unfold extends_by. cbn [train_x train_obj cumulative_cost].
  split; [reflexivity | ]. split; [reflexivity | ].
  split; [rewrite Hsum; reflexivity | ]. split; [exact Hq | ]. split.
  - eapply Forall_impl; [ | exact Hin]. intros x [Hb Hf].
    apply mixed_candidate_valid; assumption.
  - rewrite <- Hq, <- Hy. apply unsqueeze_shape.
Qed.

Lemma ei_iteration_step L (HL : BoTorchSpec L) g w g' w' :
  ei_iteration L g w = Ok (g', w') ->
  exists new_x new_obj, extends_by target_point g g' new_x new_obj.
Proof.
  intros H. apply ei_iteration_inv in H.
  destruct H as (mdl & w0 & mll & w1 & best_f & new_x & new_obj & cost
                 & _ & _ & _ & Hobs & -> & _ & _).
  apply ei_observation_inv in Hobs.
  destruct Hobs as (X & v & costs & y & Hopt & Hfull & Hcost & -> & Hy & ->).
  apply (optimize_acqf_spec HL) in Hopt as [Hq Hin].
  apply cost_forward_batch in Hcost as (Hsum & _ & _).
  apply problem_length in Hy.
  change (Ok (map (fill_row 7 0 [6%nat] [1]) X) = Ok new_x) in Hfull.
  injection Hfull as <-. rewrite length_map in Hy.
  eexists _, (unsqueeze y). unfold extends_by.
  cbn [train_x train_obj cumulative_cost].
  split; [reflexivity | ]. split; [reflexivity | ].
  split; [rewrite Hsum; reflexivity | ].
  split; [now rewrite length_map | ]. split.
  - apply Forall_forall. intros x' Hx'. apply in_map_iff in Hx'.
    destruct Hx' as (x & <- & Hx). rewrite Forall_forall in Hin.
    change (target_point (fill_row 7 0 [6%nat] [1] x)).
    destruct (fixed_candidate_valid (Hin x Hx)) as (-> & _ & Hv & Hf).
    split; assumption.
  - rewrite <- Hq, <- Hy. apply unsqueeze_shape.
Qed.

(** The summary of [n] passes: the batches and observations appended. *)
Lemma loop_summary W Mdl (body : Globals Mdl -> M W (Globals Mdl))
  (P : list Q -> Prop) :
  (forall g w g' w',
      body g w = Ok (g', w') ->
      exists new_x new_obj, extends_by P g g' new_x new_obj) ->
  forall n g w g' w',
    for_range n body g w = Ok (g', w') ->
    exists batches objs,
      length batches = n /\ length objs = n /\
      train_x g' = train_x g ++ concat batches /\
      train_obj g' = train_obj g ++ concat objs /\
      cumulative_cost g' == cumulative_cost g + total_cost batches /\
      Forall (fun b => length b = 4%nat /\ Forall P b) batches /\
      Forall (fun o => shape o 4 1) objs.
Proof.
  intros Hstep n g w g' w' Hrun.
  pose (Inv := fun (k : nat) (g1 : Globals Mdl) =>
    exists batches objs,
      length batches = k /\ length objs = k /\
      train_x g1 = train_x g ++ concat batches /\
      train_obj g1 = train_obj g ++ concat objs /\
      cumulative_cost g1 == cumulative_cost g + total_cost batches /\
      Forall (fun b => length b = 4%nat /\ Forall P b) batches /\
      Forall (fun o => shape o 4 1) objs).
  assert (H : Inv (n + 0)%nat g').
  { eapply (for_range_inv body Inv); [ | | exact Hrun].
    - intros k st w1 st' w1' (bs & os & Hb & Ho & Hx & Hy & Hc & HB & HO) Hbody.
      destruct (Hstep _ _ _ _ Hbody)
        as (new_x & new_obj & Ex & Ey & Ec & Hlen & HP & Hshape).
      exists (bs ++ [new_x]), (os ++ [new_obj]).
      rewrite !length_app, !concat_app. cbn [length concat].
      rewrite !app_nil_r, !app_assoc, <- Hx, <- Hy.
      repeat split; try lia; auto.
      + rewrite Ec, Hc, total_cost_snoc. ring.
      + apply Forall_app. split; auto.
      + apply Forall_app. split; auto.
    - exists [], []. cbn [length concat]. rewrite !app_nil_r.
      repeat split; auto. unfold total_cost. cbn [map]. rewrite Qsum_nil. ring. }
  rewrite Nat.add_0_r in H. exact H.
Qed.

(* ================================================================== *)
(** ** The executable instance meets the expectations *)

Module ToyFacts.
Import Toy.

Lemma call_ok A name szs (f : nat -> A) w a w' :
  call name szs f w = Ok (a, w') -> a = f (seed w).
Proof.
  unfold call. destruct (fuse w); [discriminate | ]. intros [= <- _]. reflexivity.
Qed.

Lemma checked_call_ok A name szs (f : nat -> A) valid w a w' :
  checked_call name szs f valid w = Ok (a, w') ->
  a = f (seed w) /\ valid a = true.
Proof.
  unfold checked_call. destruct (valid (f (seed w))) eqn:Ev; [ | discriminate].
  intros H. apply call_ok in H. subst. auto.
Qed.

Lemma forall2b_true A B (f : A -> B -> bool) (R : A -> B -> Prop) l1 l2 :
  (forall a b, f a b = true -> R a b) ->
  forall2b f l1 l2 = true -> Forall2 R l1 l2.
Proof.
  intros Hf. revert l2. induction l1 as [| a l1 IH]; intros [| b l2] H;
    cbn in H; try discriminate; constructor.
  - apply Hf. apply andb_prop in H. tauto.
  - apply IH. apply andb_prop in H. tauto.
Qed.

Lemma in_boundsb_true b x : in_boundsb b x = true -> in_bounds b x.
Proof.
  unfold in_boundsb, in_bounds.
  destruct b as [| lo [| hi [| ? ?]]]; try discriminate.
  intros H. apply andb_prop in H as [Hlo Hhi].
  split; eapply forall2b_true; eauto; intros a c; apply Qle_bool_imp_le.
Qed.

Lemma Q_same_true a b : Q_same a b = true -> a = b.
Proof.
  unfold Q_same. destruct a as [n d], b as [n' d']. cbn.
  intros H. apply andb_prop in H as [Hn Hd].
  apply Z.eqb_eq in Hn. apply Pos.eqb_eq in Hd. congruence.
Qed.

Lemma has_fixedb_true ff x : has_fixedb ff x = true -> has_fixed ff x.
Proof.
  unfold has_fixedb, has_fixed. rewrite forallb_forall, Forall_forall.
  intros H p Hp. specialize (H p Hp).
  destruct (nth_error x (fst p)) as [v |]; [ | discriminate].
  apply Q_same_true in H. congruence.
Qed.

Lemma lib_spec : BoTorchSpec lib.
Proof.
  constructor; cbn [torch_rand torch_randint optimize_acqf optimize_acqf_mixed lib].
  - intros n m w X w' H. apply call_ok in H. subst X.
    split; [apply repeat_length | ].
    apply Forall_forall. intros r Hr. apply repeat_spec in Hr. subst r.
    split; [apply repeat_length | ].
    apply Forall_forall. intros v Hv. apply repeat_spec in Hv. subst v.
    pose proof (Nat.mod_upper_bound (seed w) 4 ltac:(discriminate)) as Hlt.
    unfold Qle, Qlt. cbn [Qnum Qden]. lia.
  - intros high n m w I w' H. unfold randint in H.
    destruct high as [| h]; [discriminate | ].
    apply call_ok in H. subst I.
    split; [now rewrite length_map, length_seq | ].
    apply Forall_forall. intros r Hr. apply in_map_iff in Hr.
    destruct Hr as (i & <- & _).
    split; [apply repeat_length | ].
    apply Forall_forall. intros j Hj. apply repeat_spec in Hj. subst j.
    apply Nat.mod_upper_bound. discriminate.
  - intros acq b q nr rs o w X v w' H. unfold optimize in H.
    apply checked_call_ok in H as [E Hv]. cbn [fst] in Hv.
    injection E as -> ->. split; [apply repeat_length | ].
    apply Forall_forall. rewrite forallb_forall in Hv.
    intros x Hx. apply in_boundsb_true. auto.
  - intros acq b ffl q nr rs ic o w X v w' H. unfold optimize_mixed in H.
    apply checked_call_ok in H as [E Hv]. cbn [fst] in Hv.
    injection E as -> ->. split; [apply repeat_length | ].
    apply Forall_forall. rewrite forallb_forall in Hv.
    intros x Hx. specialize (Hv x Hx). apply andb_prop in Hv as [Hb Hf].
    split; [now apply in_boundsb_true | ].
    apply existsb_exists in Hf as (ff & Hin & Hff).
    apply Exists_exists. exists ff. split; [exact Hin | ].
    now apply has_fixedb_true.
Qed.

End ToyFacts.

(* ================================================================== *)
(** ** Runs of the two phases *)

Lemma lookup_ok L A (v : option A) (w : world L) a w' :
  lookup L v w = Ok (a, w') -> v = Some a /\ w' = w.
Proof.
  unfold lookup. destruct v as [a0 |].
  - intros H. apply ret_ok_inv in H as [-> ->]. auto.
  - discriminate.
Qed.

Lemma kg_run_inv L smoke g0 w final_rec g w' :
  kg_run L smoke g0 w = Ok (final_rec, g, w') ->
  exists X0 Y0 w1 w2 mdl,
    generate_initial_data L 16 w = Ok (X0, Y0, w1) /\
    for_range (N_ITER smoke) (kg_iteration L smoke)
      (Build_Globals X0 Y0 0 (model g0)) w1 = Ok (g, w2) /\
    model g = Some mdl /\
    get_recommendation L mdl w2 = Ok (final_rec, w').
Proof.
  unfold kg_run. intros H.
  apply bind_ok_inv in H as ([X0 Y0] & w1 & Hgen & H).
  apply bind_ok_inv in H as (g1 & w2 & Hloop & H).
  apply bind_ok_inv in H as (mdl & w3 & Hm & H).
  apply lookup_ok in Hm as [Hm ->].
  apply bind_ok_inv in H as (r & w4 & Hrec & H).
  apply ret_ok_inv in H as [E ->]. injection E as -> ->.
  exists X0, Y0, w1, w2, mdl. auto.
Qed.

Lemma ei_run_inv L smoke g0 w final_rec g w' :
  ei_run L smoke g0 w = Ok (final_rec, g, w') ->
  exists X0 Y0 w1 w2 mdl,
    generate_initial_data L 16 w = Ok (X0, Y0, w1) /\
    for_range (N_ITER smoke) (ei_iteration L)
      (Build_Globals X0 Y0 0 (model g0)) w1 = Ok (g, w2) /\
    model g = Some mdl /\
    get_recommendation L mdl w2 = Ok (final_rec, w').
Proof.
  unfold ei_run. intros H.
  apply bind_ok_inv in H as ([X0 Y0] & w1 & Hgen & H).
  apply bind_ok_inv in H as (g1 & w2 & Hloop & H).
  apply bind_ok_inv in H as (mdl & w3 & Hm & H).
  apply lookup_ok in Hm as [Hm ->].
  apply bind_ok_inv in H as (r & w4 & Hrec & H).
  apply ret_ok_inv in H as [E ->]. injection E as -> ->.
  exists X0, Y0, w1, w2, mdl. auto.
Qed.

Lemma concat_batches (P : list Q -> Prop) bs :
  Forall (fun b => length b = 4%nat /\ Forall P b) bs ->
  length (concat bs) = (4 * length bs)%nat /\ Forall P (concat bs).
Proof.
  induction 1 as [| b bs [Hb HP] _ [IHl IHP]]; cbn [concat length].
  - split; [reflexivity | constructor].
  - rewrite length_app, Hb, IHl. split; [lia | ].
    apply Forall_app. auto.
Qed.

Lemma concat_shapes objs m :
  Forall (fun o => shape o 4 m) objs ->
  shape (concat objs) (4 * length objs) m.
Proof.
  unfold shape. induction 1 as [| o objs [Ho Hw] _ [IHl IHw]];
    cbn [concat length].
  - split; [reflexivity | constructor].
  - rewrite length_app, Ho, IHl. split; [lia | ].
    apply Forall_app. auto.
Qed.

Lemma valid_point_width x : valid_point x -> length x = 7%nat.
Proof. now intros [H _]. Qed.

Lemma N_ITER_values smoke :
  (truthy smoke = false /\ N_ITER smoke = 3%nat) \/
  (truthy smoke = true /\ N_ITER smoke = 1%nat).
Proof. unfold N_ITER. destruct (truthy smoke); cbn; auto. Qed.

(** Four points at fidelity 1 cost 24. *)
Lemma target_batch_cost b :
  length b = 4%nat -> Forall target_point b -> batch_cost b == 24.
Proof.
  intros Hlen Hb. do 5 (destruct b as [| ? b]; try discriminate).
  repeat match goal with
         | H : Forall _ (_ :: _) |- _ => inversion H; subst; clear H
         end.
  unfold batch_cost, point_cost, target_point in *.
  cbn [map]. rewrite !Qsum_cons, Qsum_nil.
  repeat match goal with
         | H : _ /\ _ = 1 |- _ => destruct H as [_ ->]
         end.
  reflexivity.
Qed.

Lemma target_total_cost bs :
  Forall (fun b => length b = 4%nat /\ Forall target_point b) bs ->
  total_cost bs == 24 * inject_Z (Z.of_nat (length bs)).
Proof.
  unfold total_cost. induction 1 as [| b bs [Hb HP] _ IH].
  - reflexivity.
  - cbn [map length]. rewrite Qsum_cons, IH, (target_batch_cost Hb HP).
    rewrite Nat2Z.inj_succ, <- Z.add_1_r, inject_Z_plus. ring.
Qed.

(* ================================================================== *)
(** ** Properties of the notebook *)

(** C1.  In the multi-fidelity phase, the cumulative cost after the loop is
    the sum, over the [N_ITER] batches and over the 4 candidates of each
    batch, of 5 plus the candidate's fidelity (its 7th coordinate): the
    training inputs are the 16 initial points followed by the batches, and
    [cumulative_cost] equals [total_cost] of these batches. *)
Theorem C1_cumulative_cost_is_sum_of_affine_costs
  L (HL : BoTorchSpec L) smoke g0 w final_rec g w' :
  kg_run L smoke g0 w = Ok (final_rec, g, w') ->
  exists init_x batches,
    length init_x = 16%nat /\
    length batches = N_ITER smoke /\
    Forall (fun b => length b = 4%nat /\ Forall (fun x => length x = 7%nat) b)
           batches /\
    train_x g = init_x ++ concat batches /\
    cumulative_cost g == total_cost batches.
Proof.
  intros H. apply kg_run_inv in H.
  destruct H as (X0 & Y0 & w1 & w2 & mdl & Hgen & Hloop & _ & _).
  apply (generate_initial_data_spec HL) in Hgen as (Hn & _ & _).
  eapply loop_summary in Hloop; [ | intros; eapply kg_iteration_step; eauto].
  destruct Hloop as (bs & os & Hb & _ & Hx & _ & Hc & HB & _).
  cbn [train_x cumulative_cost] in *.
  exists X0, bs. repeat split; auto.
  - eapply Forall_impl; [ | exact HB]. intros b [Hl Hv]. split; [exact Hl | ].
    eapply Forall_impl; [ | exact Hv]. apply valid_point_width.
  - rewrite Hc. ring.
Qed.

(** C2.  Every row of the training inputs, after the initial data and after
    any number of passes through either loop, is a 7-vector whose first six
    coordinates lie in [0,1] and whose 7th coordinate is 0.5, 0.75 or 1.0. *)
Theorem C2_training_inputs_are_valid_points
  L (HL : BoTorchSpec L) smoke body k m0 w X0 Y0 w1 g w2 :
  body = kg_iteration L smoke \/ body = ei_iteration L ->
  generate_initial_data L 16 w = Ok (X0, Y0, w1) ->
  for_range k body (Build_Globals X0 Y0 0 m0) w1 = Ok (g, w2) ->
  Forall valid_point (train_x g).
Proof.
  intros Hbody Hgen Hloop.
  apply (generate_initial_data_spec HL) in Hgen as (_ & HX0 & _).
  assert (Hsum : exists bs,
             train_x g = X0 ++ concat bs /\
             Forall (fun b => length b = 4%nat /\ Forall valid_point b) bs).
  { destruct Hbody as [-> | ->].
    - eapply loop_summary in Hloop;
        [ | intros; eapply kg_iteration_step; eauto].
      destruct Hloop as (bs & os & _ & _ & Hx & _ & _ & HB & _). eauto.
    - eapply loop_summary in Hloop;
        [ | intros; eapply ei_iteration_step; eauto].
      destruct Hloop as (bs & os & _ & _ & Hx & _ & _ & HB & _).
      exists bs. split; [exact Hx | ].
      eapply Forall_impl; [ | exact HB]. intros b [Hl Hv]. split; [exact Hl | ].
      eapply Forall_impl; [ | exact Hv]. now intros x [Hx' _]. }
  destruct Hsum as (bs & -> & HB).
  apply Forall_app. split; [exact HX0 | ].
  now apply concat_batches in HB.
Qed.

(** C6.  After the initial data and after each of the [k] passes through
    either loop, [train_x] has shape (16 + 4k, 7) and [train_obj] has shape
    (16 + 4k, 1): the two always have the same number of rows. *)
Theorem C6_training_tensors_shapes
  L (HL : BoTorchSpec L) smoke body k m0 w X0 Y0 w1 g w2 :
  body = kg_iteration L smoke \/ body = ei_iteration L ->
  generate_initial_data L 16 w = Ok (X0, Y0, w1) ->
  for_range k body (Build_Globals X0 Y0 0 m0) w1 = Ok (g, w2) ->
  shape (train_x g) (16 + 4 * k) 7 /\
  shape (train_obj g) (16 + 4 * k) 1 /\
  length (train_x g) = length (train_obj g).
Proof.
  intros Hbody Hgen Hloop.
  apply (generate_initial_data_spec HL) in Hgen as (Hn & HX0 & HnY & HwY).
  assert (Hsum : exists bs os,
             length bs = k /\ length os = k /\
             train_x g = X0 ++ concat bs /\ train_obj g = Y0 ++ concat os /\
             Forall (fun b => length b = 4%nat /\ Forall valid_point b) bs /\
             Forall (fun o => shape o 4 1) os).
  { destruct Hbody as [-> | ->].
    - eapply loop_summary in Hloop;
        [ | intros; eapply kg_iteration_step; eauto].
      destruct Hloop as (bs & os & Hb & Ho & Hx & Hy & _ & HB & HO).
      exists bs, os. auto 10.
    - eapply loop_summary in Hloop;
        [ | intros; eapply ei_iteration_step; eauto].
      destruct Hloop as (bs & os & Hb & Ho & Hx & Hy & _ & HB & HO).
      exists bs, os. repeat split; auto.
      eapply Forall_impl; [ | exact HB]. intros b [Hl Hv]. split; [exact Hl | ].
      eapply Forall_impl; [ | exact Hv]. now intros x [Hx' _]. }
  destruct Hsum as (bs & os & Hb & Ho & -> & -> & HB & HO).
  apply concat_batches in HB as [HBl HBv].
  apply concat_shapes in HO as [HOl HOw].
  unfold shape, tensor in *. rewrite !length_app, HBl, HOl, Hb, Ho, Hn, HnY.
  repeat split; auto.
  - apply Forall_app. split; eapply Forall_impl; eauto using valid_point_width.
  - apply Forall_app. split; assumption.
Qed.

(** C9.  In the expected-improvement baseline every candidate has fidelity
    exactly 1 (the fixed feature), so every evaluation costs 6 and the
    cumulative cost is 6 * 4 * N_ITER, which is 72 when [SMOKE_TEST] is not
    set, whatever the random initial data and the optimiser return. *)
Theorem C9_baseline_cost_is_deterministic
  L (HL : BoTorchSpec L) smoke g0 w final_rec g w' :
  ei_run L smoke g0 w = Ok (final_rec, g, w') ->
  exists init_x batches,
    length init_x = 16%nat /\
    length batches = N_ITER smoke /\
    train_x g = init_x ++ concat batches /\
    Forall (fun b => length b = 4%nat /\
                     Forall (fun x => fidelity_of x = 1 /\ point_cost x == 6) b)
           batches /\
    cumulative_cost g == 6 * 4 * inject_Z (Z.of_nat (N_ITER smoke)) /\
    (truthy smoke = false -> cumulative_cost g == 72).
Proof.
  intros H. apply ei_run_inv in H.
  destruct H as (X0 & Y0 & w1 & w2 & mdl & Hgen & Hloop & _ & _).
  apply (generate_initial_data_spec HL) in Hgen as (Hn & _ & _).
  eapply loop_summary in Hloop; [ | intros; eapply ei_iteration_step; eauto].
  destruct Hloop as (bs & os & Hb & _ & Hx & _ & Hc & HB & _).
  cbn [train_x cumulative_cost] in *.
  assert (Hcost : cumulative_cost g
                  == 6 * 4 * inject_Z (Z.of_nat (N_ITER smoke))).
  { rewrite Hc, (target_total_cost HB), Hb. ring. }
  exists X0, bs. repeat split; auto.
  - eapply Forall_impl; [ | exact HB]. intros b [Hl Hv]. split; [exact Hl | ].
    eapply Forall_impl; [ | exact Hv]. intros x [_ Hf].
    split; [exact Hf | ]. unfold point_cost. rewrite Hf. reflexivity.
  - intros Hs. rewrite Hcost.
    destruct (N_ITER_values smoke) as [[_ ->] | [Ht _]]; [reflexivity | ].
    congruence.
Qed.

(** C5.  The recommended point is the optimiser's maximiser of the
    posterior mean, with the fidelity fixed to 1, over the six design
    bounds, completed by the fidelity: a single 7-dimensional point whose
    first six coordinates are the optimiser's and whose 7th is exactly 1. *)
Theorem C5_recommendation_at_target_fidelity
  L (HL : BoTorchSpec L) mdl w final_rec w' :
  get_recommendation L mdl w = Ok (final_rec, w') ->
  exists x v,
    optimize_acqf L
      (FixedFeatureAcquisitionFunction (PosteriorMean mdl) 7 [6%nat] [1])
      (drop_last_column bounds) 1 10 512
      {| batch_limit := 5; maxiter := 200 |} w = Ok ([x], v, w') /\
    in_bounds (drop_last_column bounds) x /\
    final_rec = [x ++ [1]] /\
    length (x ++ [1]) = 7%nat /\
    firstn 6 (x ++ [1]) = x /\
    nth_error (x ++ [1]) 6 = Some 1.
Proof.
  unfold get_recommendation. intros H. run_inv H.
  match goal with
  | H : optimize_acqf _ _ _ _ _ _ _ _ = Ok _ |- _ =>
      pose proof (optimize_acqf_spec HL _ _ _ _ _ _ _ H) as [Hq Hin];
      rename H into Hopt
  end.
  match goal with
  | X : tensor |- _ =>
      match type of Hq with length X = _ =>
        destruct X as [| x [| ? ?]]; try discriminate
      end
  end.
  apply Forall_inv in Hin.
  destruct (fixed_candidate_valid Hin) as (Hfill & Hlen & _ & _).
  match goal with
  | H : construct_X_full _ _ = Ok _ |- _ =>
      cbn [construct_X_full] in H; injection H as <-
  end.
  exists x. eexists. split; [exact Hopt | ].
  do 7 (destruct x as [| ? x]; try discriminate).
  split; [exact Hin | ]. repeat split; reflexivity.
Qed.

(** *** The properties on a concrete run *)

Lemma C1_witness :
  BoTorchSpec Toy.lib /\
  exists final_rec g w',
    kg_run Toy.lib None Toy.g0 Toy.w0 = Ok (final_rec, g, w') /\
    exists init_x batches,
      length init_x = 16%nat /\
      length batches = N_ITER None /\
      Forall (fun b => length b = 4%nat /\ Forall (fun x => length x = 7%nat) b)
             batches /\
      train_x g = init_x ++ concat batches /\
      cumulative_cost g == total_cost batches.
Proof.
  split; [exact ToyFacts.lib_spec | ].
  do 3 eexists. split; [vm_compute; reflexivity | ].
  eapply (@C1_cumulative_cost_is_sum_of_affine_costs
            Toy.lib ToyFacts.lib_spec None Toy.g0 Toy.w0).
  vm_compute. reflexivity.
Defined.

Lemma C2_witness :
  BoTorchSpec Toy.lib /\
  exists X0 Y0 w1 g w2,
    generate_initial_data Toy.lib 16 Toy.w0 = Ok (X0, Y0, w1) /\
    for_range 3 (kg_iteration Toy.lib None) (Build_Globals X0 Y0 0 None) w1
    = Ok (g, w2) /\
    Forall valid_point (train_x g).
Proof.
  split; [exact ToyFacts.lib_spec | ].
  do 5 eexists. split; [vm_compute; reflexivity | ].
  split; [vm_compute; reflexivity | ].
  eapply (@C2_training_inputs_are_valid_points
            Toy.lib ToyFacts.lib_spec None (kg_iteration Toy.lib None) 3 None
            Toy.w0).
  - left. reflexivity.
  - vm_compute. reflexivity.
  - vm_compute. reflexivity.
Defined.

Lemma C6_witness :
  BoTorchSpec Toy.lib /\
  exists X0 Y0 w1 g w2,
    generate_initial_data Toy.lib 16 Toy.w0 = Ok (X0, Y0, w1) /\
    for_range 2 (ei_iteration Toy.lib) (Build_Globals X0 Y0 0 None) w1
    = Ok (g, w2) /\
    shape (train_x g) 24 7 /\
    shape (train_obj g) 24 1 /\
    length (train_x g) = length (train_obj g).
Proof.
  split; [exact ToyFacts.lib_spec | ].
  do 5 eexists. split; [vm_compute; reflexivity | ].
  split; [vm_compute; reflexivity | ].
  eapply (@C6_training_tensors_shapes
            Toy.lib ToyFacts.lib_spec None (ei_iteration Toy.lib) 2 None
            Toy.w0).
  - right. reflexivity.
  - vm_compute. reflexivity.
  - vm_compute. reflexivity.
Defined.

Lemma C9_witness :
  BoTorchSpec Toy.lib /\
  exists final_rec g w',
    ei_run Toy.lib None Toy.g0 Toy.w0 = Ok (final_rec, g, w') /\
    exists init_x batches,
      length init_x = 16%nat /\
      length batches = N_ITER None /\
      train_x g = init_x ++ concat batches /\
      Forall (fun b => length b = 4%nat /\
                       Forall (fun x => fidelity_of x = 1 /\ point_cost x == 6) b)
             batches /\
      cumulative_cost g == 6 * 4 * inject_Z (Z.of_nat (N_ITER None)) /\
      (truthy None = false -> cumulative_cost g == 72).
Proof.
  split; [exact ToyFacts.lib_spec | ].
  do 3 eexists. split; [vm_compute; reflexivity | ].
  eapply (@C9_baseline_cost_is_deterministic
            Toy.lib ToyFacts.lib_spec None Toy.g0 Toy.w0).
  vm_compute. reflexivity.
Defined.

Lemma C5_witness :
  BoTorchSpec Toy.lib /\
  exists final_rec w',
    get_recommendation Toy.lib ([], []) Toy.w0 = Ok (final_rec, w') /\
    exists x v,
      optimize_acqf Toy.lib
        (FixedFeatureAcquisitionFunction (PosteriorMean ([], [])) 7 [6%nat] [1])
        (drop_last_column bounds) 1 10 512
        {| batch_limit := 5; maxiter := 200 |} Toy.w0 = Ok ([x], v, w') /\
      in_bounds (drop_last_column bounds) x /\
      final_rec = [x ++ [1]] /\
      length (x ++ [1]) = 7%nat /\
      firstn 6 (x ++ [1]) = x /\
      nth_error (x ++ [1]) 6 = Some 1.
Proof.
  split; [exact ToyFacts.lib_spec | ].
  do 2 eexists. split; [vm_compute; reflexivity | ].
  eapply (@C5_recommendation_at_target_fidelity
            Toy.lib ToyFacts.lib_spec ([], []) Toy.w0).
  vm_compute. reflexivity.
Defined.

(* ================================================================== *)
(** ** The smoke-test flag *)

(** C4.  With [SMOKE_TEST] set, the notebook still makes full-size calls:
    the initial conditions of the knowledge gradient are generated with 10
    restarts and 512 raw samples, and the recommendation and the
    expected-improvement optimisation run with 10 restarts and 512 raw
    samples, exactly as when the flag is not set.  (Each call is listed with
    [q], [num_restarts], [raw_samples] and, if any, [num_fantasies].) *)
Theorem C4_smoke_test_keeps_full_size_calls :
  Toy.calls (notebook Toy.lib (Some "1"%string) Toy.w0)
  = [("torch.rand", [16; 6]);
     ("torch.randint", [3; 16; 1]);
     ("SingleTaskMultiFidelityGP", []);
     ("fit_gpytorch_model", []);
     ("optimize_acqf", [1; 2; 4]);
     ("gen_one_shot_kg_initial_conditions", [4; 10; 512; 2]);
     ("optimize_acqf_mixed", [4; 2; 4; 2]);
     ("optimize_acqf", [1; 10; 512]);
     ("torch.rand", [16; 6]);
     ("torch.randint", [3; 16; 1]);
     ("SingleTaskMultiFidelityGP", []);
     ("fit_gpytorch_model", []);
     ("optimize_acqf", [4; 10; 512]);
     ("optimize_acqf", [1; 10; 512])]%string%nat /\
  In ("gen_one_shot_kg_initial_conditions", [4; 10; 512; 128])%string%nat
     (Toy.calls (notebook Toy.lib None Toy.w0)) /\
  In ("optimize_acqf", [4; 10; 512])%string%nat
     (Toy.calls (notebook Toy.lib None Toy.w0)) /\
  In ("optimize_acqf", [1; 10; 512])%string%nat
     (Toy.calls (notebook Toy.lib None Toy.w0)).
Proof.
  split; [vm_compute; reflexivity | ].
  split; [vm_compute; tauto | ].
  split; vm_compute; tauto.
Qed.

(* ================================================================== *)
(** ** The baseline against the multi-fidelity phase *)

Lemma bind_ext W A B (c : M W A) (k1 k2 : A -> M W B) w :
  (forall a w1, k1 a w1 = k2 a w1) -> bind c k1 w = bind c k2 w.
Proof.
  intros H. unfold bind. destruct (c w) as [[a w1] | e]; [apply H | reflexivity].
Qed.

Lemma bind_assoc W A B C (c : M W A) (k1 : A -> M W B) (k2 : B -> M W C) w :
  bind (bind c k1) k2 w = bind c (fun a => bind (k1 a) k2) w.
Proof.
  unfold bind. destruct (c w) as [[a w1] | e]; reflexivity.
Qed.

Lemma for_range_ext W S (b1 b2 : S -> M W S) :
  (forall st w, b1 st w = b2 st w) ->
  forall n st w, for_range n b1 st w = for_range n b2 st w.
Proof.
  intros H. induction n as [| n IH]; intros st w; cbn [for_range].
  - reflexivity.
  - unfold bind. rewrite H. destruct (b2 st w) as [[st1 w1] | e];
      [apply IH | reflexivity].
Qed.

Lemma kg_iteration_skeleton L smoke g w :
  kg_iteration L smoke g w = bo_iteration L (kg_acquire L smoke) g w.
Proof.
  unfold kg_iteration, bo_iteration, kg_acquire.
  apply bind_ext. intros [mll mdl] w1.
  apply bind_ext. intros _ w2.
  rewrite bind_assoc. reflexivity.
Qed.

Lemma ei_iteration_skeleton L g w :
  ei_iteration L g w = bo_iteration L (ei_acquire L) g w.
Proof.
  unfold ei_iteration, bo_iteration, ei_acquire.
  apply bind_ext. intros [mll mdl] w1.
  apply bind_ext. intros _ w2.
  rewrite bind_assoc. reflexivity.
Qed.

(* ================================================================== *)
(** ** The incumbent of the baseline *)

Lemma Qmax_cases a b :
  (Qmax a b = a /\ b <= a) \/ (Qmax a b = b /\ a <= b).
Proof.
  unfold Qmax. destruct (Qle_bool a b) eqn:E.
  - right. split; [reflexivity | now apply Qle_bool_iff].
  - left. split; [reflexivity | ].
    apply Qlt_le_weak, Qnot_le_lt. intros H. apply Qle_bool_iff in H. congruence.
Qed.

Lemma fold_left_Qmax ys y :
  In (fold_left Qmax ys y) (y :: ys) /\
  forall z, In z (y :: ys) -> z <= fold_left Qmax ys y.
Proof.
  revert y. induction ys as [| a ys IH]; intros y; cbn [fold_left].
  - split; [now left | ]. intros z [<- | []]. apply Qle_refl.
  - destruct (IH (Qmax y a)) as [Hin Hmax]. split.
    + destruct Hin as [Hin | Hin]; [ | now right; right].
      rewrite <- Hin. destruct (Qmax_cases y a) as [[-> _] | [-> _]]; cbn; auto.
    + intros z Hz.
      assert (Hya : y <= Qmax y a /\ a <= Qmax y a).
      { destruct (Qmax_cases y a) as [[-> H] | [-> H]];
          split; auto using Qle_refl. }
      destruct Hya as [Hy Ha].
      assert (Hm : Qmax y a <= fold_left Qmax ys (Qmax y a)).
      { apply Hmax. now left. }
      destruct Hz as [<- | [<- | Hz]].
      * eapply Qle_trans; eauto.
      * eapply Qle_trans; eauto.
      * apply Hmax. now right.
Qed.

Lemma tensor_max_spec t m :
  tensor_max t = Ok m ->
  In m (concat t) /\ forall y, In y (concat t) -> y <= m.
Proof.
  unfold tensor_max. destruct (concat t) as [| y ys]; [discriminate | ].
  intros [= <-]. apply fold_left_Qmax.
Qed.

Lemma nth_error_concat_singleton (t : tensor) i (y : Q) :
  nth_error t i = Some [y] -> In y (concat t).
Proof.
  intros H. apply nth_error_In in H. apply in_concat.
  exists [y]. split; [exact H | now left].
Qed.

(** C10.  In every pass of the baseline loop the expected-improvement
    acquisition function is built with [best_f] the largest of all the
    observations accumulated so far: it is one of them and bounds all of
    them.  The fidelity of the points plays no part: whichever training
    point carries a largest observation, at any fidelity, that observation
    is the incumbent. *)
Theorem C10_incumbent_is_max_over_all_observations L g w g' w' :
  ei_iteration L g w = Ok (g', w') ->
  exists best_f mdl w1 X v w2,
    tensor_max (train_obj g) = Ok best_f /\
    In best_f (concat (train_obj g)) /\
    (forall y, In y (concat (train_obj g)) -> y <= best_f) /\
    optimize_acqf L
      (FixedFeatureAcquisitionFunction (qExpectedImprovement mdl best_f)
         7 [6%nat] [1])
      (drop_last_column bounds) 4 10 512
      {| batch_limit := 5; maxiter := 200 |} w1 = Ok (X, v, w2) /\
    (forall i x y,
        nth_error (train_x g) i = Some x ->
        nth_error (train_obj g) i = Some [y] ->
        (forall y', In y' (concat (train_obj g)) -> y' <= y) ->
        y == best_f).
Proof.
  intros H. apply ei_iteration_inv in H.
  destruct H as (mdl & w0 & mll & w1 & best_f & new_x & new_obj & cost
                 & _ & _ & Hmax & Hobs & _).
  apply ei_observation_inv in Hobs.
  destruct Hobs as (X & v & costs & y & Hopt & _).
  pose proof (tensor_max_spec _ Hmax) as [Hin Hle].
  exists best_f, mdl, w1, X, v, w'.
  split; [exact Hmax | ]. split; [exact Hin | ]. split; [exact Hle | ].
  split; [exact Hopt | ].
  intros i x y' Hx Hy Hbig. apply Qle_antisym.
  - apply Hle. eapply nth_error_concat_singleton; eauto.
  - apply Hbig. exact Hin.
Qed.

(** On the executable instance the incumbent of the first pass is 3/2, the
    observation of the third initial point, whose fidelity is 1/2. *)
Lemma C10_witness :
  exists g' w' x,
    ei_iteration Toy.lib Toy.g1 Toy.w1 = Ok (g', w') /\
    nth_error (train_x Toy.g1) 2 = Some x /\ fidelity_of x = 1 # 2 /\
    nth_error (train_obj Toy.g1) 2 = Some [3 # 2] /\
    (forall y', In y' (concat (train_obj Toy.g1)) -> y' <= 3 # 2) /\
    exists best_f, tensor_max (train_obj Toy.g1) = Ok best_f /\ 3 # 2 == best_f.
Proof.
  do 3 eexists.
  split; [vm_compute; reflexivity | ].
  split; [vm_compute; reflexivity | ].
  split; [vm_compute; reflexivity | ].
  split; [vm_compute; reflexivity | ].
  assert (Hall : forall y', In y' (concat (train_obj Toy.g1)) -> y' <= 3 # 2).
  { intros y' Hy. vm_compute in Hy.
    repeat (destruct Hy as [<- | Hy]; [discriminate | ]). destruct Hy. }
  split; [exact Hall | ].
  edestruct (@C10_incumbent_is_max_over_all_observations
               Toy.lib Toy.g1 Toy.w1)
    as (best_f & mdl & w1 & X & v & w2 & Hmax & _ & _ & _ & Hany).
  { vm_compute. reflexivity. }
  exists best_f. split; [exact Hmax | ].
  eapply (Hany 2%nat); [vm_compute; reflexivity | vm_compute; reflexivity | ].
  exact Hall.
Defined.

(* ================================================================== *)
(** ** The model behind the recommendation *)

Section Rebuild.
Variable L : BoTorch.
Variable SMOKE_TEST : option string.

Lemma kg_observation_intro acq w ic w1 new_x v w' costs y :
  gen_one_shot_kg_initial_conditions L acq bounds 4 10 512 w = Ok (ic, w1) ->
  optimize_acqf_mixed L acq bounds
    [[(6%nat, 1 # 2)]; [(6%nat, 3 # 4)]; [(6%nat, 1)]]
    4 (NUM_RESTARTS SMOKE_TEST) (RAW_SAMPLES SMOKE_TEST) ic
    {| batch_limit := 5; maxiter := 200 |} w1 = Ok (new_x, v, w') ->
  cost_forward cost_model new_x = Ok costs ->
  problem L new_x = Ok y ->
  optimize_mfkg_and_get_observation L SMOKE_TEST acq w
  = Ok (new_x, unsqueeze y, tensor_sum costs, w').
Proof.
  intros Hic Hopt Hcost Hy.
  unfold optimize_mfkg_and_get_observation, bind, lift, ret.
  rewrite Hic, Hopt, Hcost, Hy. reflexivity.
Qed.

Lemma kg_iteration_intro g w mdl w0 mll w1 acq w2 new_x new_obj cost w' :
  SingleTaskMultiFidelityGP L (train_x g) (train_obj g) (Standardize 1) 6 w
  = Ok (mdl, w0) ->
  fit_gpytorch_model L
    (ExactMarginalLogLikelihood (likelihood_of mdl) mdl) w0 = Ok (mll, w1) ->
  get_mfkg L SMOKE_TEST mdl w1 = Ok (acq, w2) ->
  optimize_mfkg_and_get_observation L SMOKE_TEST acq w2
  = Ok (new_x, new_obj, cost, w') ->
  same_width (train_x g ++ new_x) = true ->
  same_width (train_obj g ++ new_obj) = true ->
  kg_iteration L SMOKE_TEST g w
  = Ok (Build_Globals (train_x g ++ new_x) (train_obj g ++ new_obj)
          (cumulative_cost g + cost) (Some mdl), w').
Proof.
  intros Hgp Hfit Hacq Hobs Hx Hy.
  unfold kg_iteration, initialize_model, torch_cat, bind, lift, ret.
  rewrite Hgp, Hfit, Hacq, Hobs, Hx, Hy. reflexivity.
Qed.

Lemma get_recommendation_inv mdl w final_rec w' :
  get_recommendation L mdl w = Ok (final_rec, w') ->
  exists X v,
    optimize_acqf L
      (FixedFeatureAcquisitionFunction (PosteriorMean mdl) 7 [6%nat] [1])
      (drop_last_column bounds) 1 10 512
      {| batch_limit := 5; maxiter := 200 |} w = Ok (X, v, w') /\
    final_rec = map (fill_row 7 0 [6%nat] [1]) X.
Proof.
  unfold get_recommendation. intros H. run_inv H.
  match goal with
  | H : construct_X_full _ _ = Ok _ |- _ =>
      cbn [construct_X_full] in H; injection H as <-
  end.
  eauto.
Qed.

Lemma kg_loop_prefix n g w g' w' :
  for_range n (kg_iteration L SMOKE_TEST) g w = Ok (g', w') ->
  exists sfx, train_x g' = train_x g ++ sfx.
Proof.
  intros H.
  apply (for_range_inv (kg_iteration L SMOKE_TEST)
           (fun _ g1 => exists sfx, train_x g1 = train_x g ++ sfx))
    with (k := 0%nat) in H; [exact H | | ].
  - intros k st w1 st' w1' [sfx Hsfx] Hbody.
    apply kg_iteration_inv in Hbody.
    destruct Hbody as (mdl & w0 & mll & w2 & acq & w3 & new_x & new_obj & cost
                       & _ & _ & _ & _ & -> & _).
    cbn [train_x]. rewrite Hsfx, <- app_assoc. eauto.
  - exists []. now rewrite app_nil_r.
Qed.

End Rebuild.

(** *** Changing the test function away from the points a run has seen *)

Section Agreement.
Variable L : BoTorch.
Variable f2 : list Q -> result Q.
Variable SMOKE_TEST : option string.

Lemma problem_agree X :
  (forall x, In x X -> f2 x = evaluate_true L x) ->
  problem (with_evaluate L f2) X = problem L X.
Proof.
  intros H. unfold problem. cbn [evaluate_true with_evaluate].
  apply mapR_ext_in. exact H.
Qed.

Lemma generate_initial_data_agree n w X Y w' :
  generate_initial_data L n w = Ok (X, Y, w') ->
  (forall x, In x X -> f2 x = evaluate_true L x) ->
  generate_initial_data (with_evaluate L f2) n w = Ok (X, Y, w').
Proof.
  unfold generate_initial_data. intros H Hf.
  apply bind_ok_inv in H as (X1 & w1 & Hrand & H).
  apply bind_ok_inv in H as (I & w2 & Hint & H).
  apply bind_ok_inv in H as (F & w3 & Hsel & H).
  apply lift_ok_inv in Hsel as [Hsel ->].
  apply bind_ok_inv in H as (X2 & w4 & Hcat & H).
  apply lift_ok_inv in Hcat as [Hcat ->].
  apply bind_ok_inv in H as (y & w5 & Hy & H).
  apply lift_ok_inv in Hy as [Hy ->].
  apply ret_ok_inv in H as [E ->]. injection E as -> ->.
  unfold bind, lift, ret. cbn [torch_rand torch_randint with_evaluate].
  rewrite Hrand, Hint, Hsel, Hcat, (problem_agree _ Hf), Hy. reflexivity.
Qed.

Lemma kg_iteration_agree g w g' w' :
  kg_iteration L SMOKE_TEST g w = Ok (g', w') ->
  (forall x, In x (train_x g') -> f2 x = evaluate_true L x) ->
  kg_iteration (with_evaluate L f2) SMOKE_TEST g w = Ok (g', w').
Proof.
  intros H Hf. apply kg_iteration_inv in H.
  destruct H as (mdl & w0 & mll & w1 & acq & w2 & new_x & new_obj & cost
                 & Hgp & Hfit & Hacq & Hobs & -> & Hx & Hy).
  apply kg_observation_inv in Hobs.
  destruct Hobs as (ic & w3 & v & costs & y & Hic & Hopt & Hcost & -> & Hp & ->).
  apply (@kg_iteration_intro (with_evaluate L f2) SMOKE_TEST g w
           mdl w0 mll w1 acq w2); try assumption.
  apply (@kg_observation_intro (with_evaluate L f2) SMOKE_TEST acq w2
           ic w3 new_x v w'); try assumption.
  rewrite problem_agree; [exact Hp | ].
  intros x Hx'. apply Hf. cbn [train_x]. apply in_or_app. now right.
Qed.

Lemma kg_loop_agree n g w g' w' :
  for_range n (kg_iteration L SMOKE_TEST) g w = Ok (g', w') ->
  (forall x, In x (train_x g') -> f2 x = evaluate_true L x) ->
  for_range n (kg_iteration (with_evaluate L f2) SMOKE_TEST) g w
  = Ok (g', w').
Proof.
  revert g w. induction n as [| n IH]; intros g w H Hf.
  - exact H.
  - cbn [for_range] in H. apply bind_ok_inv in H as (g1 & w1 & Hbody & Hrest).
    destruct (kg_loop_prefix _ _ _ _ _ Hrest) as [sfx Hsfx].
    assert (Hbody2 : kg_iteration (with_evaluate L f2) SMOKE_TEST g w
                     = Ok (g1, w1)).
    { apply kg_iteration_agree; [exact Hbody | ].
      intros x Hx. apply Hf. rewrite Hsfx. apply in_or_app. now left. }
    change (bind (kg_iteration (with_evaluate L f2) SMOKE_TEST g)
              (for_range n (kg_iteration (with_evaluate L f2) SMOKE_TEST)) w
            = Ok (g', w')).
    unfold bind. rewrite Hbody2. apply IH; assumption.
Qed.

End Agreement.

Lemma ok_unique A (r : result A) a b : r = Ok a -> r = Ok b -> a = b.
Proof. intros -> [= ->]. reflexivity. Qed.

Lemma N_ITER_succ smoke : exists m, N_ITER smoke = S m.
Proof. unfold N_ITER. destruct (negb (truthy smoke)); eauto. Qed.

(** C8.  The model handed to [get_recommendation] is the one built and
    fitted in the last pass of the loop, from the training set [X], [Y] as it
    was before that pass appended its batch of 4 candidates and their
    observations.  The final observations therefore never reach the
    recommendation: with any other test function that agrees with the
    original on [X] (and so may give any other observations on the final
    batch), the recommended point is the same. *)
Theorem C8_recommendation_ignores_final_batch
  L (HL : BoTorchSpec L) smoke g0 w final_rec g w' :
  kg_run L smoke g0 w = Ok (final_rec, g, w') ->
  exists X Y new_x new_obj mdl wa wb mll wc wd,
    train_x g = X ++ new_x /\
    train_obj g = Y ++ new_obj /\
    length new_x = 4%nat /\
    length new_obj = 4%nat /\
    SingleTaskMultiFidelityGP L X Y (Standardize 1) 6 wa = Ok (mdl, wb) /\
    fit_gpytorch_model L
      (ExactMarginalLogLikelihood (likelihood_of mdl) mdl) wb = Ok (mll, wc) /\
    model g = Some mdl /\
    get_recommendation L mdl wd = Ok (final_rec, w') /\
    forall f2 final_rec2 g2 w2,
      (forall x, In x X -> f2 x = evaluate_true L x) ->
      kg_run (with_evaluate L f2) smoke g0 w = Ok (final_rec2, g2, w2) ->
      final_rec2 = final_rec /\ train_x g2 = train_x g /\ model g2 = model g.
Proof.
  intros H. apply kg_run_inv in H.
  destruct H as (X0 & Y0 & w1 & w2 & mdl & Hgen & Hloop & Hm & Hrec).
  destruct (N_ITER_succ smoke) as [m Hn]. rewrite Hn, for_range_S in Hloop.
  apply bind_ok_inv in Hloop as (gp & wp & Hprev & Hlast).
  pose proof Hlast as Hl. apply kg_iteration_inv in Hl.
  destruct Hl as (mdl' & wb & mll & wc & acq & wd & new_x & new_obj & cost
                  & Hgp & Hfit & Hacq & Hobs & Hg & _ & _).
  pose proof Hobs as Ho. apply kg_observation_inv in Ho.
  destruct Ho as (ic & we & v & costs & y & Hic & Hopt & Hcost & _ & Hy & Hobj).
  pose proof Hopt as Hq. apply (optimize_acqf_mixed_spec HL) in Hq as [Hq _].
  subst g. cbn [model train_x train_obj] in *. injection Hm as ->.
  exists (train_x gp), (train_obj gp), new_x, new_obj, mdl, wp, wb, mll, wc, w2.
  split; [reflexivity | ]. split; [reflexivity | ]. split; [exact Hq | ].
  split.
  { subst new_obj. unfold unsqueeze. rewrite length_map.
    apply problem_length in Hy. congruence. }
  split; [exact Hgp | ]. split; [exact Hfit | ]. split; [reflexivity | ].
  split; [exact Hrec | ].
  intros f2 final_rec2 g2 w2' Hf H2. apply kg_run_inv in H2.
  destruct H2 as (X0' & Y0' & w1' & w2'' & mdl2 & Hgen2 & Hloop2 & Hm2 & Hrec2).
  pose proof Hprev as Hsfx. apply kg_loop_prefix in Hsfx as [sfx Hsfx].
  cbn [train_x] in Hsfx.
  (* the initial data are the same *)
  assert (Hgen' : generate_initial_data (with_evaluate L f2) 16 w
                  = Ok (X0, Y0, w1)).
  { apply generate_initial_data_agree; [exact Hgen | ].
    intros x Hx. apply Hf. rewrite Hsfx. apply in_or_app. now left. }
  pose proof (ok_unique Hgen2 Hgen') as E. injection E as -> -> ->.
  (* so are all passes but the last *)
  rewrite Hn, for_range_S in Hloop2.
  apply bind_ok_inv in Hloop2 as (gp2 & wp2 & Hprev2 & Hlast2).
  pose proof Hprev as Hprev'. apply (@kg_loop_agree L f2) in Hprev'; [ | exact Hf].
  pose proof (ok_unique Hprev2 Hprev') as E. injection E as -> ->.
  (* the last pass fits the same model and finds the same candidates *)
  apply kg_iteration_inv in Hlast2.
  destruct Hlast2 as (mdl2' & wb2 & mll2 & wc2 & acq2 & wd2 & new_x2 & new_obj2
                      & cost2 & Hgp2 & Hfit2 & Hacq2 & Hobs2 & Hg2 & _ & _).
  pose proof (ok_unique Hgp2 Hgp) as E. injection E as -> ->.
  pose proof (ok_unique Hfit2 Hfit) as E. injection E as -> ->.
  pose proof (ok_unique Hacq2 Hacq) as E. injection E as -> ->.
  apply kg_observation_inv in Hobs2.
  destruct Hobs2 as (ic2 & we2 & v2 & costs2 & y2 & Hic2 & Hopt2 & _).
  pose proof (ok_unique Hic2 Hic) as E. injection E as -> ->.
  pose proof (ok_unique Hopt2 Hopt) as E. injection E as -> -> ->.
  subst g2. cbn [model train_x] in *. injection Hm2 as ->.
  (* and the recommendation is computed from the same model and world *)
  apply get_recommendation_inv in Hrec as (R & vr & HR & ->).
  apply get_recommendation_inv in Hrec2 as (R2 & vr2 & HR2 & ->).
  pose proof (ok_unique HR2 HR) as E. injection E as -> -> ->.
  repeat split; reflexivity.
Qed.

Lemma app_split_last4 A (l X n : list A) :
  l = X ++ n -> length n = 4%nat -> X = firstn (length l - 4) l.
Proof.
  intros -> Hn. rewrite length_app, Hn.
  replace (length X + 4 - 4)%nat with (length X + 0)%nat by lia.
  rewrite firstn_app_2. cbn [firstn]. now rewrite app_nil_r.
Qed.

(** On the executable instance the final batch lies at fidelity 3/4, where
    the two test functions differ: the observations of the final batch
    differ, the recommended point does not. *)
Lemma C8_witness :
  BoTorchSpec Toy.lib /\
  exists final_rec g w' final_rec2 g2 w2,
    kg_run Toy.lib None Toy.g0 Toy.w0 = Ok (final_rec, g, w') /\
    kg_run (with_evaluate Toy.lib Toy.evaluate') None Toy.g0 Toy.w0
    = Ok (final_rec2, g2, w2) /\
    train_obj g2 <> train_obj g /\
    final_rec2 = final_rec.
Proof.
  split; [exact ToyFacts.lib_spec | ].
  do 6 eexists.
  split; [vm_compute; reflexivity | ].
  split; [vm_compute; reflexivity | ].
  split; [vm_compute; discriminate | ].
  edestruct (@C8_recommendation_ignores_final_batch
               Toy.lib ToyFacts.lib_spec None Toy.g0 Toy.w0)
    as (X & Y & new_x & new_obj & mdl & wa & wb & mll & wc & wd
        & Hx & _ & Hlen & _ & _ & _ & _ & _ & Hany).
  { vm_compute. reflexivity. }
  apply (app_split_last4 _ _ Hx) in Hlen.
  edestruct (Hany Toy.evaluate') as (Hrec & _).
  - intros x Hin. rewrite Hlen in Hin. vm_compute in Hin.
    repeat (destruct Hin as [<- | Hin]; [reflexivity | ]). destruct Hin.
  - vm_compute. reflexivity.
  - exact Hrec.
Defined.

(* ================================================================== *)
(** ** Raised errors *)

Lemma lift_raise_inv W A (r : result A) (w : W) e :
  lift r w = Raise e -> r = Raise e.
Proof. unfold lift. destruct r; [discriminate | intros [= ->]; reflexivity]. Qed.

(** Decompose a failed run of a sequence of binds: one goal for each step
    that can have raised, with the steps before it having returned. *)
Ltac raise_inv H :=
  lazymatch type of H with
  | bind _ _ _ = Raise _ =>
      let a := fresh "a" in
      let w := fresh "w" in
      let E := fresh "E" in
      apply bind_raise_inv in H; destruct H as [H | (a & w & E & H)];
      [ first [apply lift_raise_inv in H | raise_inv H]
      | cbv beta in H; run_inv E; raise_inv H ]
  | (let '(_, _) := ?x in _) _ = Raise _ => destruct x; raise_inv H
  | (let (_, _) := ?x in _) _ = Raise _ => destruct x; raise_inv H
  | ret _ _ = Raise _ => discriminate H
  | _ => idtac
  end.

(** Replay a run from the results of its steps. *)
Ltac replay :=
  unfold bind, lift, ret;
  repeat match goal with
         | H : _ = Ok _ |- _ => rewrite H
         | H : _ = Raise _ |- _ => rewrite H
         end;
  try reflexivity.

Section Raised.
Variable L : BoTorch.
Variable SMOKE_TEST : option string.
Variable e : exn.

Lemma generate_initial_data_raise_iff n w :
  generate_initial_data L n w = Raise e <->
  generate_initial_data_raises L e n w.
Proof.
  split.
  - unfold generate_initial_data. intros H. raise_inv H;
      solve [econstructor; eassumption].
  - destruct 1; unfold generate_initial_data; replay.
Qed.

Lemma get_mfkg_raise_iff mdl w :
  get_mfkg L SMOKE_TEST mdl w = Raise e <->
  get_mfkg_raises L SMOKE_TEST e mdl w.
Proof.
  split.
  - unfold get_mfkg. intros H. raise_inv H; solve [econstructor; eassumption].
  - destruct 1; unfold get_mfkg; replay.
Qed.

Lemma kg_observation_raise_iff acq w :
  optimize_mfkg_and_get_observation L SMOKE_TEST acq w = Raise e <->
  kg_observation_raises L SMOKE_TEST e acq w.
Proof.
  split.
  - unfold optimize_mfkg_and_get_observation. intros H. raise_inv H;
      solve [econstructor; eassumption].
  - destruct 1; unfold optimize_mfkg_and_get_observation; replay.
Qed.

Lemma ei_observation_raise_iff acq w :
  optimize_ei_and_get_observation L acq w = Raise e <->
  ei_observation_raises L e acq w.
Proof.
  split.
  - unfold optimize_ei_and_get_observation. intros H. raise_inv H;
      solve [econstructor; eassumption].
  - destruct 1; unfold optimize_ei_and_get_observation; replay.
Qed.

Lemma get_recommendation_raise_iff mdl w :
  get_recommendation L mdl w = Raise e <->
  get_recommendation_raises L e mdl w.
Proof.
  split.
  - unfold get_recommendation. intros H. raise_inv H;
      repeat match goal with
             | E : construct_X_full _ _ = _ |- _ =>
                 cbn [construct_X_full] in E;
                 first [discriminate E | injection E as <-]
             end;
      solve [econstructor; eassumption].
  - destruct 1; unfold get_recommendation, construct_X_full; replay.
Qed.

Lemma kg_acquire_raise_iff g mdl w :
  kg_acquire L SMOKE_TEST g mdl w = Raise e <->
  kg_acquire_raises L SMOKE_TEST e g mdl w.
Proof.
  split.
  - unfold kg_acquire. intros H. raise_inv H.
    + apply get_mfkg_raise_iff in H. now constructor.
    + apply kg_observation_raise_iff in H. econstructor 2; eassumption.
  - destruct 1 as [H | acq w1 Hacq H]; unfold kg_acquire.
    + apply get_mfkg_raise_iff in H. replay.
    + apply kg_observation_raise_iff in H. replay.
Qed.

Lemma ei_acquire_raise_iff g mdl w :
  ei_acquire L g mdl w = Raise e <-> ei_acquire_raises L e g mdl w.
Proof.
  split.
  - unfold ei_acquire. intros H. raise_inv H.
    + now constructor.
    + apply ei_observation_raise_iff in H. econstructor 2; eassumption.
  - destruct 1 as [H | best_f Hmax H]; unfold ei_acquire.
    + replay.
    + apply ei_observation_raise_iff in H. replay.
Qed.

Lemma bo_iteration_raise_iff acquire acquire_raises g w :
  (forall g1 mdl w1, acquire g1 mdl w1 = Raise e <-> acquire_raises g1 mdl w1) ->
  bo_iteration L acquire g w = Raise e <->
  iteration_raises L e acquire acquire_raises g w.
Proof.
  intros Hacq. split.
  - unfold bo_iteration, initialize_model. intros H. raise_inv H;
      try solve [econstructor; eassumption].
    apply Hacq in H. econstructor 3; eassumption.
  - destruct 1; unfold bo_iteration, initialize_model;
      try match goal with
          | H : acquire_raises _ _ _ |- _ => apply Hacq in H
          end; replay.
Qed.

End Raised.

(** A loop raises exactly when some pass raises after the passes before it
    have returned. *)
Lemma for_range_raise_iff W S (body : S -> M W S) e n st w :
  for_range n body st w = Raise e <->
  exists k stk wk,
    (k < n)%nat /\ for_range k body st w = Ok (stk, wk) /\
    body stk wk = Raise e.
Proof.
  split.
  - revert st w. induction n as [| n IH]; intros st w H; cbn [for_range] in H.
    + discriminate H.
    + apply bind_raise_inv in H as [H | (st1 & w1 & Hb & H)].
      * exists 0%nat, st, w. split; [lia | ]. split; [reflexivity | exact H].
      * destruct (IH _ _ H) as (k & stk & wk & Hk & Hrun & Hraise).
        exists (Datatypes.S k), stk, wk. split; [lia | ].
        split; [ | exact Hraise].
        cbn [for_range]. unfold bind. rewrite Hb. exact Hrun.
  - intros (k & stk & wk & Hk & Hrun & Hraise).
    revert n st w Hk Hrun. induction k as [| k IH]; intros n st w Hk Hrun.
    + apply ret_ok_inv in Hrun as [-> ->].
      destruct n as [| n]; [lia | ]. cbn [for_range]. now apply bind_raise.
    + cbn [for_range] in Hrun.
      apply bind_ok_inv in Hrun as (st1 & w1 & Hb & Hrun).
      destruct n as [| n]; [lia | ]. cbn [for_range]. unfold bind. rewrite Hb.
      apply IH; [lia | exact Hrun].
Qed.

Lemma for_range_model W Mdl (body : Globals Mdl -> M W (Globals Mdl)) :
  (forall g w g' w', body g w = Ok (g', w') -> model g' <> None) ->
  forall n g w g' w',
    for_range (S n) body g w = Ok (g', w') -> model g' <> None.
Proof.
  intros Hbody n g w g' w' H. rewrite for_range_S in H.
  apply bind_ok_inv in H as (g1 & w1 & _ & H). eauto.
Qed.

Section RaisedPhase.
Variable L : BoTorch.
Variable SMOKE_TEST : option string.
Variable e : exn.
Variable body : Globals (Model L) -> M (world L) (Globals (Model L)).
Variable body_raises : Globals (Model L) -> world L -> Prop.
Hypothesis body_raise_iff :
  forall g w, body g w = Raise e <-> body_raises g w.
Hypothesis body_model :
  forall g w g' w', body g w = Ok (g', w') -> model g' <> None.

Variable run : Globals (Model L) -> M (world L) (tensor * Globals (Model L)).
Hypothesis run_eq :
  forall g0 w,
    run g0 w
    = bind (generate_initial_data L 16)
        (fun d =>
           bind (for_range (N_ITER SMOKE_TEST) body
                   (Build_Globals (fst d) (snd d) 0 (model g0)))
             (fun g' =>
                bind (lookup L (model g'))
                  (fun mdl =>
                     bind (get_recommendation L mdl)
                       (fun final_rec => ret (final_rec, g'))))) w.

Lemma phase_raise_iff g0 w :
  run g0 w = Raise e <-> phase_raises L SMOKE_TEST e body body_raises g0 w.
Proof.
  rewrite run_eq. split.
  - intros H. apply bind_raise_inv in H as [H | ([X0 Y0] & w1 & Hgen & H)].
    { apply generate_initial_data_raise_iff in H. now constructor. }
    cbn [fst snd] in H.
    apply bind_raise_inv in H as [H | (g' & w2 & Hloop & H)].
    { apply for_range_raise_iff in H as (k & gk & wk & Hk & Hrun & Hraise).
      apply body_raise_iff in Hraise. econstructor 2; eassumption. }
    destruct (N_ITER_succ SMOKE_TEST) as [m Hm].
    pose proof Hloop as Hmodel. rewrite Hm in Hmodel.
    apply (@for_range_model _ _ body body_model) in Hmodel.
    destruct (model g') as [mdl |] eqn:Emdl; [ | congruence].
    cbn [lookup] in H.
    apply bind_raise_inv in H as [H | (mdl' & w3 & Hret & H)];
      [discriminate H | ].
    apply ret_ok_inv in Hret as [-> ->].
    apply bind_raise_inv in H as [H | (r & w4 & _ & H)]; [ | discriminate H].
    apply get_recommendation_raise_iff in H. econstructor 3; eassumption.
  - destruct 1 as [H | X0 Y0 w1 k gk wk Hgen Hk Hrun H
                     | X0 Y0 w1 g' w2 mdl Hgen Hloop Hmdl H].
    + apply generate_initial_data_raise_iff in H. now apply bind_raise.
    + apply body_raise_iff in H. unfold bind at 1. rewrite Hgen. cbn [fst snd].
      apply bind_raise. apply for_range_raise_iff. eauto 6.
    + apply get_recommendation_raise_iff in H.
      unfold bind at 1. rewrite Hgen. cbn [fst snd].
      unfold bind at 1. rewrite Hloop, Hmdl. cbn [lookup].
      unfold bind at 1. unfold ret at 1. now apply bind_raise.
Qed.

End RaisedPhase.

Section RaisedRuns.
Variable L : BoTorch.
Variable SMOKE_TEST : option string.
Variable e : exn.

Lemma kg_iteration_raise_iff g w :
  kg_iteration L SMOKE_TEST g w = Raise e <->
  iteration_raises L e (kg_acquire L SMOKE_TEST)
    (kg_acquire_raises L SMOKE_TEST e) g w.
Proof.
  rewrite kg_iteration_skeleton. apply bo_iteration_raise_iff.
  intros g1 mdl w1. apply kg_acquire_raise_iff.
Qed.

Lemma ei_iteration_raise_iff g w :
  ei_iteration L g w = Raise e <->
  iteration_raises L e (ei_acquire L) (ei_acquire_raises L e) g w.
Proof.
  rewrite ei_iteration_skeleton. apply bo_iteration_raise_iff.
  intros g1 mdl w1. apply ei_acquire_raise_iff.
Qed.

Lemma kg_iteration_model g w g' w' :
  kg_iteration L SMOKE_TEST g w = Ok (g', w') -> model g' <> None.
Proof.
  intros H. apply kg_iteration_inv in H.
  destruct H as (mdl & w0 & mll & w1 & acq & w2 & new_x & new_obj & cost
                 & _ & _ & _ & _ & -> & _).
  discriminate.
Qed.

Lemma ei_iteration_model g w g' w' :
  ei_iteration L g w = Ok (g', w') -> model g' <> None.
Proof.
  intros H. apply ei_iteration_inv in H.
  destruct H as (mdl & w0 & mll & w1 & best_f & new_x & new_obj & cost
                 & _ & _ & _ & _ & -> & _).
  discriminate.
Qed.

Lemma kg_run_raise_iff g0 w :
  kg_run L SMOKE_TEST g0 w = Raise e <-> kg_run_raises L SMOKE_TEST e g0 w.
Proof.
  unfold kg_run_raises.
  apply (@phase_raise_iff L SMOKE_TEST e _ _ kg_iteration_raise_iff
           kg_iteration_model (kg_run L SMOKE_TEST)).
  intros g w1. unfold kg_run. apply bind_ext. intros [X0 Y0] w2. reflexivity.
Qed.

Lemma ei_run_raise_iff g0 w :
  ei_run L SMOKE_TEST g0 w = Raise e <-> ei_run_raises L SMOKE_TEST e g0 w.
Proof.
  unfold ei_run_raises.
  apply (@phase_raise_iff L SMOKE_TEST e _ _ ei_iteration_raise_iff
           ei_iteration_model (ei_run L SMOKE_TEST)).
  intros g w1. unfold ei_run. apply bind_ext. intros [X0 Y0] w2. reflexivity.
Qed.

End RaisedRuns.

(** C7.  The notebook handles no error.  It raises [e] exactly when one of
    the calls it makes raises [e] at the point of the run where the call is
    reached: model construction, model fitting, an acquisition optimisation,
    a function evaluation, a tensor operation, in the initial data, in any
    pass of either loop, or in a recommendation.  So every error of a call
    leaves the notebook unchanged, whatever the calls before it returned,
    and the notebook raises no error of its own. *)
Theorem C7_errors_propagate_unchanged L smoke e w :
  notebook L smoke w = Raise e <-> notebook_raises L smoke e w.
Proof.
  unfold notebook. split.
  - intros H. apply bind_raise_inv in H as [H | (kg & w1 & Hkg & H)].
    + apply kg_run_raise_iff in H. now constructor.
    + apply bind_raise_inv in H as [H | (ei & w2 & _ & H)]; [ | discriminate H].
      apply ei_run_raise_iff in H. econstructor 2; eassumption.
  - destruct 1 as [H | kg w1 Hkg H].
    + apply kg_run_raise_iff in H. now apply bind_raise.
    + apply ei_run_raise_iff in H. unfold bind at 1. rewrite Hkg.
      now apply bind_raise.
Qed.

(** On the executable instance with the fuse at 3, the fourth call of the
    run, the model fitting of the first pass, raises. *)
Lemma C7_witness :
  notebook_raises Toy.lib None Toy.LibraryError
    {| Toy.seed := 0; Toy.fuse := 3; Toy.trace := [] |} /\
  notebook Toy.lib None {| Toy.seed := 0; Toy.fuse := 3; Toy.trace := [] |}
  = Raise Toy.LibraryError.
Proof.
  assert (H : notebook_raises Toy.lib None Toy.LibraryError
                {| Toy.seed := 0; Toy.fuse := 3; Toy.trace := [] |}).
  { apply raises_in_kg_run. unfold kg_run_raises.
    eapply raises_in_pass with (k := 0%nat).
    - vm_compute. reflexivity.
    - vm_compute. lia.
    - reflexivity.
    - eapply raises_model_fitting; vm_compute; reflexivity. }
  split; [exact H | ].
  apply (proj2 (C7_errors_propagate_unchanged Toy.lib None Toy.LibraryError
                  {| Toy.seed := 0; Toy.fuse := 3; Toy.trace := [] |})).
  exact H.
Defined.

(** On the executable instance, whichever of the 30 calls of a full run is
    the one to fail, the notebook raises its error. *)
Lemma toy_every_call_failure_propagates k :
  (k < 30)%nat ->
  notebook Toy.lib None {| Toy.seed := 0; Toy.fuse := k; Toy.trace := [] |}
  = Raise Toy.LibraryError.
Proof.
  intros Hk.
  do 30 (destruct k as [| k]; [vm_compute; reflexivity | ]). lia.
Qed.

(* ================================================================== *)
(** ** Observations belong to their inputs *)

Lemma problem_observed L X y :
  problem L X = Ok y -> observed L X (unsqueeze y).
Proof.
  intros H. apply mapR_ok in H. unfold observed, unsqueeze.
  induction H as [| x v X y Hx _ IH]; cbn [map]; constructor; eauto.
Qed.

Lemma generate_initial_data_observed L n w X Y w' :
  generate_initial_data L n w = Ok (X, Y, w') -> observed L X Y.
Proof.
  unfold generate_initial_data. intros H. run_inv H. injection H as -> ->.
  now apply problem_observed.
Qed.

Lemma kg_iteration_observed L smoke g w g' w' :
  kg_iteration L smoke g w = Ok (g', w') ->
  observed L (train_x g) (train_obj g) ->
  observed L (train_x g') (train_obj g').
Proof.
  intros H Hobs. apply kg_iteration_inv in H.
  destruct H as (mdl & w0 & mll & w1 & acq & w2 & new_x & new_obj & cost
                 & _ & _ & _ & Ho & -> & _ & _).
  apply kg_observation_inv in Ho.
  destruct Ho as (ic & w3 & v & costs & y & _ & _ & _ & _ & Hy & ->).
  cbn [train_x train_obj]. apply Forall2_app; [exact Hobs | ].
  now apply problem_observed.
Qed.

Lemma ei_iteration_observed L g w g' w' :
  ei_iteration L g w = Ok (g', w') ->
  observed L (train_x g) (train_obj g) ->
  observed L (train_x g') (train_obj g').
Proof.
  intros H Hobs. apply ei_iteration_inv in H.
  destruct H as (mdl & w0 & mll & w1 & best_f & new_x & new_obj & cost
                 & _ & _ & _ & Ho & -> & _ & _).
  apply ei_observation_inv in Ho.
  destruct Ho as (X & v & costs & y & _ & _ & _ & _ & Hy & ->).
  cbn [train_x train_obj]. apply Forall2_app; [exact Hobs | ].
  now apply problem_observed.
Qed.

(** X1.  The training tensors stay paired: after the initial data and after
    any number of passes through either loop, row [i] of [train_obj] is the
    value of the test function at row [i] of [train_x]. *)
Theorem X1_observations_belong_to_their_inputs
  L smoke body n k m0 w X0 Y0 w1 g w2 :
  body = kg_iteration L smoke \/ body = ei_iteration L ->
  generate_initial_data L n w = Ok (X0, Y0, w1) ->
  for_range k body (Build_Globals X0 Y0 0 m0) w1 = Ok (g, w2) ->
  observed L (train_x g) (train_obj g).
Proof.
  intros Hbody Hgen Hloop.
  apply generate_initial_data_observed in Hgen.
  apply (for_range_inv body
           (fun _ g1 => observed L (train_x g1) (train_obj g1)))
    with (k := 0%nat) in Hloop; [exact Hloop | | exact Hgen].
  intros j st wa st' wb Hst Hpass. destruct Hbody as [-> | ->].
  - eapply kg_iteration_observed; eauto.
  - eapply ei_iteration_observed; eauto.
Qed.

Lemma X1_witness :
  exists X0 Y0 w1 g w2,
    generate_initial_data Toy.lib 16 Toy.w0 = Ok (X0, Y0, w1) /\
    for_range 3 (kg_iteration Toy.lib None) (Build_Globals X0 Y0 0 None) w1
    = Ok (g, w2) /\
    observed Toy.lib (train_x g) (train_obj g).
Proof.
  do 5 eexists. split; [vm_compute; reflexivity | ].
  split; [vm_compute; reflexivity | ].
  eapply (@X1_observations_belong_to_their_inputs
            Toy.lib None (kg_iteration Toy.lib None) 16 3 None Toy.w0).
  - left. reflexivity.
  - vm_compute. reflexivity.
  - vm_compute. reflexivity.
Defined.

(* ================================================================== *)
(** ** The cost of the multi-fidelity phase *)

Lemma valid_point_cost x :
  valid_point x -> 11 # 2 <= point_cost x /\ point_cost x <= 6.
Proof.
  intros (_ & _ & Hf). unfold point_cost, fidelities in *. cbn [In] in Hf.
  destruct Hf as [<- | [<- | [<- | []]]]; split; discriminate.
Qed.

Lemma valid_total_cost bs :
  Forall (fun b => length b = 4%nat /\ Forall valid_point b) bs ->
  22 * inject_Z (Z.of_nat (length bs)) <= total_cost bs /\
  total_cost bs <= 24 * inject_Z (Z.of_nat (length bs)).
Proof.
  unfold total_cost. induction 1 as [| b bs [Hb HP] _ [IHlo IHhi]].
  - split; discriminate.
  - cbn [map length]. rewrite Qsum_cons.
    rewrite Nat2Z.inj_succ, <- Z.add_1_r, inject_Z_plus.
    assert (Hbc : 22 <= batch_cost b /\ batch_cost b <= 24).
    { do 5 (destruct b as [| ? b]; try discriminate).
      repeat match goal with
             | H : Forall _ (_ :: _) |- _ => inversion H; subst; clear H
             end.
      repeat match goal with
             | H : valid_point _ |- _ => apply valid_point_cost in H; destruct H
             end.
      unfold batch_cost. cbn [map]. rewrite !Qsum_cons, Qsum_nil.
      split.
      - setoid_replace 22 with ((11 # 2) + ((11 # 2) + ((11 # 2) + ((11 # 2) + 0))))
          by reflexivity.
        repeat apply Qplus_le_compat; auto using Qle_refl.
      - setoid_replace 24 with (6 + (6 + (6 + (6 + 0)))) by reflexivity.
        repeat apply Qplus_le_compat; auto using Qle_refl. }
    destruct Hbc as [Hlo Hhi]. split.
    + setoid_replace (22 * (inject_Z (Z.of_nat (length bs)) + inject_Z 1))
        with (22 + 22 * inject_Z (Z.of_nat (length bs))) by ring.
      now apply Qplus_le_compat.
    + setoid_replace (24 * (inject_Z (Z.of_nat (length bs)) + inject_Z 1))
        with (24 + 24 * inject_Z (Z.of_nat (length bs))) by ring.
      now apply Qplus_le_compat.
Qed.

(** X2.  The multi-fidelity phase pays between 5.5 and 6 for each of its
    4 * N_ITER candidates: its cumulative cost lies between 22 * N_ITER and
    24 * N_ITER, and never exceeds the cumulative cost of a baseline phase
    run with the same flag. *)
Theorem X2_multi_fidelity_cost_bounds
  L (HL : BoTorchSpec L) smoke g0 w final_rec g w' :
  kg_run L smoke g0 w = Ok (final_rec, g, w') ->
  22 * inject_Z (Z.of_nat (N_ITER smoke)) <= cumulative_cost g /\
  cumulative_cost g <= 24 * inject_Z (Z.of_nat (N_ITER smoke)) /\
  forall g1 w1 final_rec1 g_ei w1',
    ei_run L smoke g1 w1 = Ok (final_rec1, g_ei, w1') ->
    cumulative_cost g <= cumulative_cost g_ei.
Proof.
  intros H. apply kg_run_inv in H.
  destruct H as (X0 & Y0 & wa & wb & mdl & _ & Hloop & _ & _).
  eapply loop_summary in Hloop; [ | intros; eapply kg_iteration_step; eauto].
  destruct Hloop as (bs & os & Hb & _ & _ & _ & Hc & HB & _).
  cbn [cumulative_cost] in Hc.
  destruct (valid_total_cost HB) as [Hlo Hhi]. rewrite Hb in Hlo, Hhi.
  assert (Hg : cumulative_cost g == total_cost bs) by (rewrite Hc; ring).
  split; [now rewrite Hg | ]. split; [now rewrite Hg | ].
  intros g1 w1 final_rec1 g_ei w1' Hei. apply ei_run_inv in Hei.
  destruct Hei as (X1 & Y1 & wc & wd & mdl1 & _ & Hloop1 & _ & _).
  eapply loop_summary in Hloop1; [ | intros; eapply ei_iteration_step; eauto].
  destruct Hloop1 as (bs1 & os1 & Hb1 & _ & _ & _ & Hc1 & HB1 & _).
  cbn [cumulative_cost] in Hc1.
  rewrite Hg, Hc1, (target_total_cost HB1), Hb1.
  setoid_replace (0 + 24 * inject_Z (Z.of_nat (N_ITER smoke)))
    with (24 * inject_Z (Z.of_nat (N_ITER smoke))) by ring.
  exact Hhi.
Qed.

Lemma X2_witness :
  BoTorchSpec Toy.lib /\
  exists final_rec g w',
    kg_run Toy.lib None Toy.g0 Toy.w0 = Ok (final_rec, g, w') /\
    22 * inject_Z (Z.of_nat (N_ITER None)) <= cumulative_cost g /\
    cumulative_cost g <= 24 * inject_Z (Z.of_nat (N_ITER None)).
Proof.
  split; [exact ToyFacts.lib_spec | ].
  do 3 eexists. split; [vm_compute; reflexivity | ].
  edestruct (@X2_multi_fidelity_cost_bounds
               Toy.lib ToyFacts.lib_spec None Toy.g0 Toy.w0)
    as (Hlo & Hhi & _).
  { vm_compute. reflexivity. }
  split; [exact Hlo | exact Hhi].
Defined.

(* ================================================================== *)
(** ** The incumbent over the passes *)

Lemma tensor_max_app a b m :
  tensor_max a = Ok m ->
  exists m', tensor_max (a ++ b) = Ok m' /\ m <= m'.
Proof.
  intros H. pose proof (tensor_max_spec _ H) as [Hin _].
  destruct (tensor_max (a ++ b)) as [m' | e] eqn:E.
  - exists m'. split; [reflexivity | ].
    apply tensor_max_spec in E as [_ Hle]. apply Hle.
    rewrite concat_app. apply in_or_app. now left.
  - unfold tensor_max in E. rewrite concat_app in E.
    destruct (concat a) as [| y ys]; [destruct Hin | discriminate E].
Qed.

(** X3.  The incumbent of the baseline never decreases from one pass to
    the next: the largest observation after a pass, which is the [best_f]
    of the following pass, is at least the [best_f] the pass was run
    with. *)
Theorem X3_incumbent_never_decreases L g w g' w' :
  ei_iteration L g w = Ok (g', w') ->
  exists best_f best_f',
    tensor_max (train_obj g) = Ok best_f /\
    tensor_max (train_obj g') = Ok best_f' /\
    best_f <= best_f'.
Proof.
  intros H. apply ei_iteration_inv in H.
  destruct H as (mdl & w0 & mll & w1 & best_f & new_x & new_obj & cost
                 & _ & _ & Hmax & _ & -> & _).
  cbn [train_obj].
  destruct (@tensor_max_app (train_obj g) new_obj best_f Hmax)
    as (m' & Hm' & Hle).
  exists best_f, m'. auto.
Qed.

Lemma X3_witness :
  exists g' w' best_f best_f',
    ei_iteration Toy.lib Toy.g1 Toy.w1 = Ok (g', w') /\
    tensor_max (train_obj Toy.g1) = Ok best_f /\
    tensor_max (train_obj g') = Ok best_f' /\
    best_f <= best_f'.
Proof.
  do 2 eexists.
  edestruct (@X3_incumbent_never_decreases Toy.lib Toy.g1 Toy.w1)
    as (b & b' & Hb & Hb' & Hle).
  { vm_compute. reflexivity. }
  exists b, b'. split; [vm_compute; reflexivity | ]. auto.
Defined.

(* ================================================================== *)
(** ** The flag is read through its truth value *)

(** X5.  The notebook depends on [SMOKE_TEST] only through its Python truth
    value: two settings with the same truth value give the same run.  So
    the empty string runs the full-size notebook like an unset variable,
    and every non-empty value runs the reduced one. *)
Theorem X5_flag_read_through_truth_value L s1 s2 w :
  truthy s1 = truthy s2 -> notebook L s1 w = notebook L s2 w.
Proof.
  intros H.
  unfold notebook, kg_run, ei_run, kg_iteration, get_mfkg,
    optimize_mfkg_and_get_observation, N_ITER, NUM_RESTARTS, RAW_SAMPLES.
  rewrite H. reflexivity.
Qed.

Lemma X5_witness :
  truthy (Some EmptyString) = truthy None /\
  truthy (Some "0"%string) = truthy (Some "1"%string) /\
  notebook Toy.lib (Some EmptyString) Toy.w0 = notebook Toy.lib None Toy.w0 /\
  notebook Toy.lib (Some "0"%string) Toy.w0
  = notebook Toy.lib (Some "1"%string) Toy.w0.
Proof.
  split; [reflexivity | ]. split; [reflexivity | ]. split.
  - apply X5_flag_read_through_truth_value. reflexivity.
  - apply X5_flag_read_through_truth_value. reflexivity.
Defined.

(* ================================================================== *)
(** ** The notebook's own tensor code does not fail *)

Lemma mapR_raise A B (f : A -> result B) l e :
  mapR f l = Raise e -> exists a, In a l /\ f a = Raise e.
Proof.
  induction l as [| a l IH]; cbn [mapR]; [discriminate | ].
  destruct (f a) as [b | e'] eqn:Efa.
  - destruct (mapR f l) as [bs | e'']; [discriminate | ].
    intros [= ->]. destruct (IH eq_refl) as (a' & Hin & Ha').
    exists a'. split; [now right | exact Ha'].
  - intros [= ->]. exists a. split; [now left | exact Efa].
Qed.

Lemma mapR_total A B (f : A -> result B) l :
  Forall (fun a => exists b, f a = Ok b) l -> exists l', mapR f l = Ok l'.
Proof.
  induction 1 as [| a l [b Hb] _ [l' IH]]; cbn [mapR].
  - eauto.
  - rewrite Hb, IH. eauto.
Qed.

Lemma same_width_Forall m (t : tensor) :
  Forall (fun r => length r = m) t -> same_width t = true.
Proof.
  destruct 1 as [| r t Hr Ht]; cbn [same_width]; [reflexivity | ].
  apply forallb_forall. intros r' Hr'. rewrite Forall_forall in Ht.
  apply Nat.eqb_eq. rewrite Hr. auto.
Qed.

Lemma torch_cat_total m a b :
  Forall (fun r => length r = m) a -> Forall (fun r => length r = m) b ->
  torch_cat a b = Ok (a ++ b).
Proof.
  intros Ha Hb. unfold torch_cat.
  rewrite (@same_width_Forall m); [reflexivity | ].
  apply Forall_app. auto.
Qed.

Lemma cost_forward_total X :
  Forall (fun x => length x = 7%nat) X ->
  exists costs, cost_forward cost_model X = Ok costs.
Proof.
  intros H. unfold cost_forward. apply mapR_total.
  eapply Forall_impl; [ | exact H]. intros x Hx. cbv beta.
  cbv [cost_model fidelity_weights fixed_cost weighted_fidelities].
  destruct (nth_error x 6) as [s |] eqn:Es; [eauto | ].
  apply nth_error_None in Es. cbv beta in Hx. lia.
Qed.

Lemma index_select_total I :
  Forall (fun r => length r = 1%nat /\ Forall (fun i => (i < 3)%nat) r) I ->
  exists F, index_select fidelities I = Ok F.
Proof.
  intros H. unfold index_select. apply mapR_total.
  eapply Forall_impl; [ | exact H]. intros r [_ Hr]. cbv beta.
  apply mapR_total. eapply Forall_impl; [ | exact Hr]. intros i Hi.
  cbv beta in Hi |- *.
  destruct (nth_error fidelities i) as [v |] eqn:Ev; [eauto | ].
  apply nth_error_None in Ev. change (length fidelities) with 3%nat in Ev. lia.
Qed.

Lemma tensor_max_total (t : tensor) :
  Forall (fun y => length y = 1%nat) t -> t <> [] ->
  exists m, tensor_max t = Ok m.
Proof.
  intros Ht Hne. unfold tensor_max.
  destruct t as [| r t]; [congruence | ].
  apply Forall_inv in Ht. destruct r as [| y r]; [discriminate | ].
  cbn [concat app]. eauto.
Qed.

Lemma in_bounds_width7 x : in_bounds bounds x -> length x = 7%nat.
Proof.
  unfold in_bounds, bounds, problem_dim. cbn [repeat]. intros [Hlo _].
  apply Forall2_length in Hlo. cbn in Hlo. congruence.
Qed.

Lemma initial_data_well_shaped L (HL : BoTorchSpec L) n m0 w X0 Y0 w1 :
  generate_initial_data L (S n) w = Ok (X0, Y0, w1) ->
  well_shaped (Build_Globals X0 Y0 0 m0 : Globals (Model L)).
Proof.
  intros H. apply (generate_initial_data_spec HL) in H as (_ & HX & HnY & HY).
  unfold well_shaped. cbn [train_x train_obj]. split; [ | split].
  - eapply Forall_impl; [ | exact HX]. apply valid_point_width.
  - exact HY.
  - destruct Y0; [discriminate HnY | discriminate].
Qed.

Lemma extends_by_well_shaped Mdl (P : list Q -> Prop) (g g' : Globals Mdl)
  new_x new_obj :
  (forall x, P x -> length x = 7%nat) ->
  extends_by P g g' new_x new_obj -> well_shaped g -> well_shaped g'.
Proof.
  intros HP (Ex & Ey & _ & _ & Hnew & _ & Hw) (Hx & Hy & Hne).
  unfold well_shaped. rewrite Ex, Ey. split; [ | split].
  - apply Forall_app. split; [exact Hx | ].
    eapply Forall_impl; [ | exact Hnew]. exact HP.
  - apply Forall_app. split; assumption.
  - destruct (train_obj g); [congruence | discriminate].
Qed.

Lemma kg_iteration_well_shaped L (HL : BoTorchSpec L) smoke g w g' w' :
  kg_iteration L smoke g w = Ok (g', w') -> well_shaped g -> well_shaped g'.
Proof.
  intros H. apply (kg_iteration_step HL) in H as (new_x & new_obj & H).
  eapply extends_by_well_shaped; [ | exact H]. apply valid_point_width.
Qed.

Lemma ei_iteration_well_shaped L (HL : BoTorchSpec L) g w g' w' :
  ei_iteration L g w = Ok (g', w') -> well_shaped g -> well_shaped g'.
Proof.
  intros H. apply (ei_iteration_step HL) in H as (new_x & new_obj & H).
  eapply extends_by_well_shaped; [ | exact H].
  intros x [Hx _]. now apply valid_point_width.
Qed.

Lemma fixed_rows_width7 X :
  Forall (in_bounds (drop_last_column bounds)) X ->
  Forall (fun x => length x = 7%nat) (map (fill_row 7 0 [6%nat] [1]) X).
Proof.
  intros H. apply Forall_forall. intros x' Hx'. apply in_map_iff in Hx'.
  destruct Hx' as (x & <- & Hx). rewrite Forall_forall in H.
  destruct (fixed_candidate_valid (H x Hx)) as (-> & _ & Hv & _).
  now apply valid_point_width.
Qed.

Lemma loop_well_shaped W Mdl (body : Globals Mdl -> M W (Globals Mdl)) :
  (forall g w g' w', body g w = Ok (g', w') -> well_shaped g -> well_shaped g') ->
  forall n g w g' w',
    for_range n body g w = Ok (g', w') -> well_shaped g -> well_shaped g'.
Proof.
  intros Hstep n g w g' w' Hrun Hg.
  apply (for_range_inv body (fun _ g1 => well_shaped g1))
    with (k := 0%nat) in Hrun; [exact Hrun | | exact Hg].
  intros k st w1 st' w1' Hst Hb. eauto.
Qed.

(** *** Failures are failures of library calls *)

Section LibraryOnly.
Variable L : BoTorch.
Hypothesis HL : BoTorchSpec L.
Variable SMOKE_TEST : option string.
Variable e : exn.

Lemma generate_initial_data_library_iff n w :
  generate_initial_data L n w = Raise e <->
  generate_initial_data_library_raises L e n w.
Proof.
  rewrite generate_initial_data_raise_iff. split.
  - destruct 1 as [H | X w1 Hr H | X w1 I w2 Hr Hi H | X w1 I w2 F Hr Hi Hs H
                   | X w1 I w2 F X' Hr Hi Hs Hc H].
    + now constructor.
    + econstructor 2; eassumption.
    + (* the fidelity indices are in range *)
      apply (torch_randint_spec HL) in Hi as [_ HI].
      apply index_select_total in HI as [F HF]. congruence.
    + (* the two blocks have the same number of rows *)
      apply (torch_rand_spec HL) in Hr as [Hn _].
      apply (torch_randint_spec HL) in Hi as [Hi _].
      apply mapR_length in Hs.
      unfold torch_cat_dim1 in H. rewrite Hn, Hs, Hi, Nat.eqb_refl in H.
      discriminate H.
    + econstructor 3; eassumption.
  - destruct 1.
    + now constructor.
    + econstructor 2; eassumption.
    + econstructor 5; eassumption.
Qed.

Lemma mixed_candidates_width7 acq ffl q nr rs ic o w X v w' :
  optimize_acqf_mixed L acq bounds ffl q nr rs ic o w = Ok (X, v, w') ->
  Forall (fun x => length x = 7%nat) X.
Proof.
  intros H. apply (optimize_acqf_mixed_spec HL) in H as [_ Hin].
  eapply Forall_impl; [ | exact Hin]. intros x [Hb _].
  now apply in_bounds_width7.
Qed.

Lemma ei_candidates_width7 mdl best_f q nr rs o w X v w' X' :
  optimize_acqf L (get_ei L mdl best_f) (drop_last_column bounds) q nr rs o w
  = Ok (X, v, w') ->
  construct_X_full (get_ei L mdl best_f) X = Ok X' ->
  Forall (fun x => length x = 7%nat) X'.
Proof.
  intros H Hfull. apply (optimize_acqf_spec HL) in H as [_ Hin].
  apply fixed_rows_width7 in Hin.
  change (Ok (map (fill_row 7 0 [6%nat] [1]) X) = Ok X') in Hfull.
  injection Hfull as <-. exact Hin.
Qed.

Lemma kg_observation_library_iff acq w :
  kg_observation_raises L SMOKE_TEST e acq w <->
  kg_observation_library_raises L SMOKE_TEST e acq w.
Proof.
  split.
  - destruct 1 as [H | ic w1 Hic H | ic w1 X v w2 Hic Hopt H
                   | ic w1 X v w2 costs Hic Hopt Hc H].
    + now constructor.
    + econstructor 2; eassumption.
    + (* the cost model finds the fidelity coordinate *)
      apply mixed_candidates_width7 in Hopt.
      apply cost_forward_total in Hopt as [costs Hc]. congruence.
    + econstructor 3; eassumption.
  - destruct 1 as [H | ic w1 Hic H | ic w1 X v w2 Hic Hopt H].
    + now constructor.
    + econstructor 2; eassumption.
    + pose proof Hopt as Hw. apply mixed_candidates_width7 in Hw.
      apply cost_forward_total in Hw as [costs Hc].
      econstructor 4; eassumption.
Qed.

Lemma ei_observation_library_iff mdl best_f w :
  ei_observation_raises L e (get_ei L mdl best_f) w <->
  ei_observation_library_raises L e (get_ei L mdl best_f) w.
Proof.
  split.
  - destruct 1 as [H | X v w1 Hopt H | X v w1 X' Hopt Hfull H
                   | X v w1 X' costs Hopt Hfull Hc H].
    + now constructor.
    + (* the acquisition function is a fixed-feature one *)
      discriminate H.
    + (* the cost model finds the fidelity coordinate *)
      pose proof (@ei_candidates_width7 _ _ _ _ _ _ _ _ _ _ _ Hopt Hfull) as Hw.
      apply cost_forward_total in Hw as [costs Hc]. congruence.
    + econstructor 2; eassumption.
  - destruct 1 as [H | X v w1 X' Hopt Hfull H].
    + now constructor.
    + pose proof (@ei_candidates_width7 _ _ _ _ _ _ _ _ _ _ _ Hopt Hfull) as Hw.
      apply cost_forward_total in Hw as [costs Hc].
      econstructor 4; eassumption.
Qed.

Lemma kg_acquire_library_iff g mdl w :
  kg_acquire_raises L SMOKE_TEST e g mdl w <->
  kg_acquire_library_raises L SMOKE_TEST e g mdl w.
Proof.
  split.
  - destruct 1 as [H | acq w1 Hacq H].
    + now constructor.
    + apply kg_observation_library_iff in H. econstructor 2; eassumption.
  - destruct 1 as [H | acq w1 Hacq H].
    + now constructor.
    + apply kg_observation_library_iff in H. econstructor 2; eassumption.
Qed.

Lemma ei_acquire_library_iff g mdl w :
  well_shaped g ->
  ei_acquire_raises L e g mdl w <-> ei_acquire_library_raises L e g mdl w.
Proof.
  intros (_ & Hy & Hne). split.
  - destruct 1 as [H | best_f Hmax H].
    + (* there is an observation to take the largest of *)
      destruct (tensor_max_total Hy Hne) as [m Hm]. congruence.
    + apply ei_observation_library_iff in H. econstructor; eassumption.
  - destruct 1 as [best_f Hmax H].
    apply ei_observation_library_iff in H. econstructor 2; eassumption.
Qed.

Lemma kg_acquire_widths g mdl w new_x new_obj cost w' :
  kg_acquire L SMOKE_TEST g mdl w = Ok (new_x, new_obj, cost, w') ->
  Forall (fun x => length x = 7%nat) new_x /\
  Forall (fun y => length y = 1%nat) new_obj.
Proof.
  unfold kg_acquire. intros H.
  apply bind_ok_inv in H as (acq & w1 & _ & H).
  apply kg_observation_inv in H.
  destruct H as (ic & w2 & v & costs & y & _ & Hopt & _ & _ & _ & ->).
  split; [eapply mixed_candidates_width7; eauto | ].
  apply (proj2 (unsqueeze_shape y)).
Qed.

Lemma ei_acquire_widths g mdl w new_x new_obj cost w' :
  ei_acquire L g mdl w = Ok (new_x, new_obj, cost, w') ->
  Forall (fun x => length x = 7%nat) new_x /\
  Forall (fun y => length y = 1%nat) new_obj.
Proof.
  unfold ei_acquire. intros H.
  apply bind_ok_inv in H as (best_f & w1 & Hmax & H).
  apply lift_ok_inv in Hmax as [_ ->].
  apply ei_observation_inv in H.
  destruct H as (X & v & costs & y & Hopt & Hfull & _ & _ & _ & ->).
  split; [eapply ei_candidates_width7; eauto | ].
  apply (proj2 (unsqueeze_shape y)).
Qed.

(** In a pass over a well-shaped training set the two concatenations
    succeed, so a failure of the pass is a failure of a library call. *)
Lemma iteration_library_iff acquire acquire_raises acquire_library g w :
  well_shaped g ->
  (forall mdl w1, acquire_raises g mdl w1 <-> acquire_library g mdl w1) ->
  (forall mdl w1 new_x new_obj cost w',
      acquire g mdl w1 = Ok (new_x, new_obj, cost, w') ->
      Forall (fun x => length x = 7%nat) new_x /\
      Forall (fun y => length y = 1%nat) new_obj) ->
  iteration_raises L e acquire acquire_raises g w <->
  iteration_library_raises L e acquire_library g w.
Proof.
  intros (Hx & Hy & _) Hacq Hwidth. split.
  - destruct 1 as [H | mdl w1 Hgp H | mdl w1 mll w2 Hgp Hfit H
                   | mdl w1 mll w2 new_x new_obj cost w3 Hgp Hfit Ha H
                   | mdl w1 mll w2 new_x new_obj cost w3 X' Hgp Hfit Ha _ H].
    + now constructor.
    + econstructor 2; eassumption.
    + apply Hacq in H. econstructor 3; eassumption.
    + (* the new inputs have the width of the old ones *)
      apply Hwidth in Ha as [Hnx _].
      rewrite (torch_cat_total Hx Hnx) in H. discriminate H.
    + (* the new observations have the width of the old ones *)
      apply Hwidth in Ha as [_ Hno].
      rewrite (torch_cat_total Hy Hno) in H. discriminate H.
  - destruct 1 as [H | mdl w1 Hgp H | mdl w1 mll w2 Hgp Hfit H].
    + now constructor.
    + econstructor 2; eassumption.
    + apply Hacq in H. econstructor 3; eassumption.
Qed.

Lemma kg_iteration_library_iff g w :
  well_shaped g ->
  kg_iteration L SMOKE_TEST g w = Raise e <->
  kg_iteration_library_raises L SMOKE_TEST e g w.
Proof.
  intros Hg. rewrite kg_iteration_raise_iff.
  apply iteration_library_iff; [exact Hg | | ].
  - intros mdl w1. apply kg_acquire_library_iff.
  - intros mdl w1 new_x new_obj cost w'. apply kg_acquire_widths.
Qed.

Lemma ei_iteration_library_iff g w :
  well_shaped g ->
  ei_iteration L g w = Raise e <-> ei_iteration_library_raises L e g w.
Proof.
  intros Hg. rewrite ei_iteration_raise_iff.
  apply iteration_library_iff; [exact Hg | | ].
  - intros mdl w1. now apply ei_acquire_library_iff.
  - intros mdl w1 new_x new_obj cost w'. apply ei_acquire_widths.
Qed.

(** A phase whose passes keep the training set well shaped. *)
Lemma phase_library_iff body body_raises body_library g0 w :
  (forall g w1 g' w1',
      body g w1 = Ok (g', w1') -> well_shaped g -> well_shaped g') ->
  (forall g w1, well_shaped g -> body_raises g w1 <-> body_library g w1) ->
  phase_raises L SMOKE_TEST e body body_raises g0 w <->
  phase_library_raises L SMOKE_TEST e body body_library g0 w.
Proof.
  intros Hkeep Hbody.
  assert (Hshape : forall X0 Y0 w1 k gk wk,
             generate_initial_data L 16 w = Ok (X0, Y0, w1) ->
             for_range k body (Build_Globals X0 Y0 0 (model g0)) w1
             = Ok (gk, wk) ->
             well_shaped gk).
  { intros X0 Y0 w1 k gk wk Hgen Hrun.
    eapply loop_well_shaped; [exact Hkeep | exact Hrun | ].
    eapply (initial_data_well_shaped HL). exact Hgen. }
  split.
  - destruct 1 as [H | X0 Y0 w1 k gk wk Hgen Hk Hrun H
                   | X0 Y0 w1 g' w2 mdl Hgen Hrun Hm H].
    + apply generate_initial_data_raise_iff in H.
      apply generate_initial_data_library_iff in H. now constructor.
    + apply Hbody in H; [ | eapply Hshape; eassumption].
      econstructor 2; eassumption.
    + econstructor 3; eassumption.
  - destruct 1 as [H | X0 Y0 w1 k gk wk Hgen Hk Hrun H
                   | X0 Y0 w1 g' w2 mdl Hgen Hrun Hm H].
    + apply generate_initial_data_library_iff in H.
      apply generate_initial_data_raise_iff in H. now constructor.
    + apply Hbody in H; [ | eapply Hshape; eassumption].
      econstructor 2; eassumption.
    + econstructor 3; eassumption.
Qed.

Lemma kg_run_library_iff g0 w :
  kg_run L SMOKE_TEST g0 w = Raise e <->
  phase_library_raises L SMOKE_TEST e (kg_iteration L SMOKE_TEST)
    (kg_iteration_library_raises L SMOKE_TEST e) g0 w.
Proof.
  rewrite kg_run_raise_iff. unfold kg_run_raises.
  apply phase_library_iff.
  - intros g w1 g' w1'. apply (kg_iteration_well_shaped HL).
  - intros g w1 Hg. rewrite <- kg_iteration_raise_iff.
    now apply kg_iteration_library_iff.
Qed.

Lemma ei_run_library_iff g0 w :
  ei_run L SMOKE_TEST g0 w = Raise e <->
  phase_library_raises L SMOKE_TEST e (ei_iteration L)
    (ei_iteration_library_raises L e) g0 w.
Proof.
  rewrite ei_run_raise_iff. unfold ei_run_raises.
  apply phase_library_iff.
  - intros g w1 g' w1'. apply (ei_iteration_well_shaped HL).
  - intros g w1 Hg. rewrite <- ei_iteration_raise_iff.
    now apply ei_iteration_library_iff.
Qed.

End LibraryOnly.

(** X6.  Drawing the initial data fails exactly when one of its three
    library calls does, at its place in the run: [torch.rand]; or
    [torch.randint] once the design has been drawn; or the test function on
    the points assembled from both draws.  The notebook's own indexing of
    [fidelities] and its concatenation of the two blocks never fail: the
    indices are in range and the blocks have the same number of rows. *)
Theorem X6_initial_data_fails_only_in_library
  L (HL : BoTorchSpec L) n w e :
  generate_initial_data L n w = Raise e <->
  generate_initial_data_library_raises L e n w.
Proof. now apply generate_initial_data_library_iff. Qed.

(** With the fuse at 1 the second call of the run, [torch.randint], is the
    one that fails. *)
Lemma X6_witness :
  generate_initial_data Toy.lib 5
    {| Toy.seed := 0; Toy.fuse := 1; Toy.trace := [] |}
  = Raise Toy.LibraryError /\
  generate_initial_data_library_raises Toy.lib Toy.LibraryError 5
    {| Toy.seed := 0; Toy.fuse := 1; Toy.trace := [] |}.
Proof.
  split; [vm_compute; reflexivity | ].
  apply (proj1 (@X6_initial_data_fails_only_in_library
                  Toy.lib ToyFacts.lib_spec 5
                  {| Toy.seed := 0; Toy.fuse := 1; Toy.trace := [] |}
                  Toy.LibraryError)).
  vm_compute. reflexivity.
Defined.

(** X7.  A pass of either loop over a well-shaped training set (7 input
    columns, 1 observation column, at least one row) fails exactly when one
    of its library calls does, at its place in the pass: the model
    constructor on the current training set; the fitting of the model it
    returned; an optimiser called on the fitted model; or the test function
    on the candidates the optimiser returned.  The cost model, both
    concatenations, the maximum over the observations and the fixed-feature
    completion never fail there, and a pass that returns leaves the training
    set well shaped. *)
Theorem X7_pass_fails_only_in_library L (HL : BoTorchSpec L) smoke g w :
  well_shaped g ->
  (forall e, kg_iteration L smoke g w = Raise e <->
             kg_iteration_library_raises L smoke e g w) /\
  (forall e, ei_iteration L g w = Raise e <->
             ei_iteration_library_raises L e g w) /\
  (forall g' w', kg_iteration L smoke g w = Ok (g', w') -> well_shaped g') /\
  (forall g' w', ei_iteration L g w = Ok (g', w') -> well_shaped g').
Proof.
  intros Hg. split; [ | split; [ | split]].
  - intros e. now apply kg_iteration_library_iff.
  - intros e. now apply ei_iteration_library_iff.
  - intros g' w' H. eapply kg_iteration_well_shaped; eauto.
  - intros g' w' H. eapply ei_iteration_well_shaped; eauto.
Qed.

(** On the training set of the initial data: with the fuse at 2 the third
    call of a baseline pass, [optimize_acqf], fails; with the fuse at 4 the
    fifth call of a multi-fidelity pass, [optimize_acqf_mixed], fails. *)
Lemma X7_witness :
  well_shaped Toy.g1 /\
  (ei_iteration Toy.lib Toy.g1
     {| Toy.seed := 2; Toy.fuse := 2; Toy.trace := [] |}
   = Raise Toy.LibraryError /\
   ei_iteration_library_raises Toy.lib Toy.LibraryError Toy.g1
     {| Toy.seed := 2; Toy.fuse := 2; Toy.trace := [] |}) /\
  (kg_iteration Toy.lib None Toy.g1
     {| Toy.seed := 2; Toy.fuse := 4; Toy.trace := [] |}
   = Raise Toy.LibraryError /\
   kg_iteration_library_raises Toy.lib None Toy.LibraryError Toy.g1
     {| Toy.seed := 2; Toy.fuse := 4; Toy.trace := [] |}) /\
  exists g' w', ei_iteration Toy.lib Toy.g1 Toy.w1 = Ok (g', w') /\
                well_shaped g'.
Proof.
  assert (Hg : well_shaped Toy.g1).
  { apply (@initial_data_well_shaped Toy.lib ToyFacts.lib_spec 15 None Toy.w0
             _ _ Toy.w1).
    vm_compute. reflexivity. }
  split; [exact Hg | ].
  split; [split; [vm_compute; reflexivity | ] | split; [split; [vm_compute; reflexivity | ] | ]].
  - apply (proj1 (proj1 (proj2 (@X7_pass_fails_only_in_library
                     Toy.lib ToyFacts.lib_spec None
                     Toy.g1 {| Toy.seed := 2; Toy.fuse := 2; Toy.trace := [] |}
                     Hg)) Toy.LibraryError)).
    vm_compute. reflexivity.
  - apply (proj1 (proj1 (@X7_pass_fails_only_in_library
                     Toy.lib ToyFacts.lib_spec None
                     Toy.g1 {| Toy.seed := 2; Toy.fuse := 4; Toy.trace := [] |}
                     Hg) Toy.LibraryError)).
    vm_compute. reflexivity.
  - do 2 eexists. split; [vm_compute; reflexivity | ].
    eapply (proj2 (proj2 (proj2 (@X7_pass_fails_only_in_library
                     Toy.lib ToyFacts.lib_spec None
                     Toy.g1 Toy.w1 Hg)))).
    vm_compute. reflexivity.
Defined.

(** X8.  The notebook as a whole fails exactly when one of its library
    calls does, at its place in the run: a random draw or the test function
    in the initial data of a phase; the model constructor, the fitting, an
    optimiser or the test function in some pass, after the passes before it
    have returned; or the optimiser or the test function in a
    recommendation; in the multi-fidelity phase, or in the baseline once the
    multi-fidelity phase has returned.  Its own indexing, concatenation, cost
    and maximum computations never fail, and the model variable is always
    bound when a recommendation is asked for. *)
Theorem X8_notebook_fails_only_in_library L (HL : BoTorchSpec L) smoke w e :
  notebook L smoke w = Raise e <-> notebook_library_raises L smoke e w.
Proof.
  unfold notebook. split.
  - intros H. apply bind_raise_inv in H as [H | (kg & w1 & Hkg & H)].
    + apply (kg_run_library_iff HL) in H. now constructor.
    + apply bind_raise_inv in H as [H | (ei & w2 & _ & H)]; [ | discriminate H].
      apply (ei_run_library_iff HL) in H. econstructor 2; eassumption.
  - destruct 1 as [H | kg w1 Hkg H].
    + apply (kg_run_library_iff HL) in H. now apply bind_raise.
    + apply (ei_run_library_iff HL) in H. unfold bind at 1. rewrite Hkg.
      now apply bind_raise.
Qed.

(** With the fuse at 20 the multi-fidelity phase returns and the failing
    call is one of the baseline. *)
Lemma X8_witness :
  notebook Toy.lib None {| Toy.seed := 0; Toy.fuse := 20; Toy.trace := [] |}
  = Raise Toy.LibraryError /\
  notebook_library_raises Toy.lib None Toy.LibraryError
    {| Toy.seed := 0; Toy.fuse := 20; Toy.trace := [] |}.
Proof.
  split; [vm_compute; reflexivity | ].
  apply (proj1 (@X8_notebook_fails_only_in_library Toy.lib ToyFacts.lib_spec
                  None {| Toy.seed := 0; Toy.fuse := 20; Toy.trace := [] |}
                  Toy.LibraryError)).
  vm_compute. reflexivity.
Defined.

(* ================================================================== *)
(** ** The model behind the baseline's recommendation *)

Section RebuildBaseline.
Variable L : BoTorch.

Lemma ei_observation_intro acq w X v w' X' costs y :
  optimize_acqf L acq (drop_last_column bounds) 4 10 512
    {| batch_limit := 5; maxiter := 200 |} w = Ok (X, v, w') ->
  construct_X_full acq X = Ok X' ->
  cost_forward cost_model X' = Ok costs ->
  problem L X' = Ok y ->
  optimize_ei_and_get_observation L acq w
  = Ok (X', unsqueeze y, tensor_sum costs, w').
Proof.
  intros Hopt Hfull Hcost Hy.
  unfold optimize_ei_and_get_observation, bind, lift, ret.
  rewrite Hopt, Hfull, Hcost, Hy. reflexivity.
Qed.

Lemma ei_iteration_intro g w mdl w0 mll w1 best_f new_x new_obj cost w' :
  SingleTaskMultiFidelityGP L (train_x g) (train_obj g) (Standardize 1) 6 w
  = Ok (mdl, w0) ->
  fit_gpytorch_model L
    (ExactMarginalLogLikelihood (likelihood_of mdl) mdl) w0 = Ok (mll, w1) ->
  tensor_max (train_obj g) = Ok best_f ->
  optimize_ei_and_get_observation L (get_ei L mdl best_f) w1
  = Ok (new_x, new_obj, cost, w') ->
  same_width (train_x g ++ new_x) = true ->
  same_width (train_obj g ++ new_obj) = true ->
  ei_iteration L g w
  = Ok (Build_Globals (train_x g ++ new_x) (train_obj g ++ new_obj)
          (cumulative_cost g + cost) (Some mdl), w').
Proof.
  intros Hgp Hfit Hmax Hobs Hx Hy.
  unfold ei_iteration, initialize_model, torch_cat, bind, lift, ret.
  rewrite Hgp, Hfit, Hmax, Hobs, Hx, Hy. reflexivity.
Qed.

Lemma ei_loop_prefix n g w g' w' :
  for_range n (ei_iteration L) g w = Ok (g', w') ->
  exists sfx, train_x g' = train_x g ++ sfx.
Proof.
  intros H.
  apply (for_range_inv (ei_iteration L)
           (fun _ g1 => exists sfx, train_x g1 = train_x g ++ sfx))
    with (k := 0%nat) in H; [exact H | | ].
  - intros k st w1 st' w1' [sfx Hsfx] Hbody.
    apply ei_iteration_inv in Hbody.
    destruct Hbody as (mdl & w0 & mll & w2 & best_f & new_x & new_obj & cost
                       & _ & _ & _ & _ & -> & _).
    cbn [train_x]. rewrite Hsfx, <- app_assoc. eauto.
  - exists []. now rewrite app_nil_r.
Qed.

End RebuildBaseline.

Section AgreementBaseline.
Variable L : BoTorch.
Variable f2 : list Q -> result Q.

Lemma ei_iteration_agree g w g' w' :
  ei_iteration L g w = Ok (g', w') ->
  (forall x, In x (train_x g') -> f2 x = evaluate_true L x) ->
  ei_iteration (with_evaluate L f2) g w = Ok (g', w').
Proof.
  intros H Hf. apply ei_iteration_inv in H.
  destruct H as (mdl & w0 & mll & w1 & best_f & new_x & new_obj & cost
                 & Hgp & Hfit & Hmax & Hobs & -> & Hx & Hy).
  apply ei_observation_inv in Hobs.
  destruct Hobs as (X & v & costs & y & Hopt & Hfull & Hcost & -> & Hp & ->).
  apply (@ei_iteration_intro (with_evaluate L f2) g w mdl w0 mll w1 best_f);
    try assumption.
  apply (@ei_observation_intro (with_evaluate L f2)
           (get_ei L mdl best_f) w1 X v w' new_x); try assumption.
  rewrite problem_agree; [exact Hp | ].
  intros x Hx'. apply Hf. cbn [train_x]. apply in_or_app. now right.
Qed.

Lemma ei_loop_agree n g w g' w' :
  for_range n (ei_iteration L) g w = Ok (g', w') ->
  (forall x, In x (train_x g') -> f2 x = evaluate_true L x) ->
  for_range n (ei_iteration (with_evaluate L f2)) g w = Ok (g', w').
Proof.
  revert g w. induction n as [| n IH]; intros g w H Hf.
  - exact H.
  - cbn [for_range] in H. apply bind_ok_inv in H as (g1 & w1 & Hbody & Hrest).
    pose proof Hrest as Hsfx. apply ei_loop_prefix in Hsfx as [sfx Hsfx].
    assert (Hbody2 : ei_iteration (with_evaluate L f2) g w = Ok (g1, w1)).
    { apply ei_iteration_agree; [exact Hbody | ].
      intros x Hx. apply Hf. rewrite Hsfx. apply in_or_app. now left. }
    change (bind (ei_iteration (with_evaluate L f2) g)
              (for_range n (ei_iteration (with_evaluate L f2))) w
            = Ok (g', w')).
    unfold bind. rewrite Hbody2. apply IH; assumption.
Qed.

End AgreementBaseline.

(** X9.  The recommendation of the baseline is stale in the same way as
    that of the multi-fidelity phase: the model handed to
    [get_recommendation] in the last cell was built and fitted in the last
    pass, from the training set [X], [Y] as it was before that pass appended
    its 4 candidates and their observations, and with any other test
    function that agrees with the original on [X] the recommended point is
    the same. *)
Theorem X9_baseline_recommendation_ignores_final_batch
  L (HL : BoTorchSpec L) smoke g0 w final_rec g w' :
  ei_run L smoke g0 w = Ok (final_rec, g, w') ->
  exists X Y new_x new_obj mdl wa wb mll wc wd,
    train_x g = X ++ new_x /\
    train_obj g = Y ++ new_obj /\
    length new_x = 4%nat /\
    length new_obj = 4%nat /\
    SingleTaskMultiFidelityGP L X Y (Standardize 1) 6 wa = Ok (mdl, wb) /\
    fit_gpytorch_model L
      (ExactMarginalLogLikelihood (likelihood_of mdl) mdl) wb = Ok (mll, wc) /\
    model g = Some mdl /\
    get_recommendation L mdl wd = Ok (final_rec, w') /\
    forall f2 final_rec2 g2 w2,
      (forall x, In x X -> f2 x = evaluate_true L x) ->
      ei_run (with_evaluate L f2) smoke g0 w = Ok (final_rec2, g2, w2) ->
      final_rec2 = final_rec /\ train_x g2 = train_x g /\ model g2 = model g.
Proof.
  intros H. apply ei_run_inv in H.
  destruct H as (X0 & Y0 & w1 & w2 & mdl & Hgen & Hloop & Hm & Hrec).
  destruct (N_ITER_succ smoke) as [m Hn]. rewrite Hn, for_range_S in Hloop.
  apply bind_ok_inv in Hloop as (gp & wp & Hprev & Hlast).
  pose proof Hlast as Hl. apply ei_iteration_inv in Hl.
  destruct Hl as (mdl' & wb & mll & wc & best_f & new_x & new_obj & cost
                  & Hgp & Hfit & Hmax & Hobs & Hg & _ & _).
  pose proof Hlast as Hs. apply (ei_iteration_step HL) in Hs.
  destruct Hs as (nx & no & Ex & Ey & _ & Hlx & _ & Hlo & _).
  subst g. cbn [model train_x train_obj] in *. injection Hm as ->.
  apply app_inv_head in Ex. apply app_inv_head in Ey. subst nx no.
  exists (train_x gp), (train_obj gp), new_x, new_obj, mdl, wp, wb, mll, wc, w2.
  split; [reflexivity | ]. split; [reflexivity | ]. split; [exact Hlx | ].
  split; [exact Hlo | ].
  split; [exact Hgp | ]. split; [exact Hfit | ]. split; [reflexivity | ].
  split; [exact Hrec | ].
  intros f2 final_rec2 g2 w2' Hf H2. apply ei_run_inv in H2.
  destruct H2 as (X0' & Y0' & w1' & w2'' & mdl2 & Hgen2 & Hloop2 & Hm2 & Hrec2).
  pose proof Hprev as Hsfx. apply ei_loop_prefix in Hsfx as [sfx Hsfx].
  cbn [train_x] in Hsfx.
  assert (Hgen' : generate_initial_data (with_evaluate L f2) 16 w
                  = Ok (X0, Y0, w1)).
  { apply generate_initial_data_agree; [exact Hgen | ].
    intros x Hx. apply Hf. rewrite Hsfx. apply in_or_app. now left. }
  pose proof (ok_unique Hgen2 Hgen') as E. injection E as -> -> ->.
  rewrite Hn, for_range_S in Hloop2.
  apply bind_ok_inv in Hloop2 as (gp2 & wp2 & Hprev2 & Hlast2).
  pose proof Hprev as Hprev'. apply (@ei_loop_agree L f2) in Hprev'; [ | exact Hf].
  pose proof (ok_unique Hprev2 Hprev') as E. injection E as -> ->.
  apply ei_iteration_inv in Hlast2.
  destruct Hlast2 as (mdl2' & wb2 & mll2 & wc2 & best_f2 & new_x2 & new_obj2
                      & cost2 & Hgp2 & Hfit2 & Hmax2 & Hobs2 & Hg2 & _ & _).
  pose proof (ok_unique Hgp2 Hgp) as E. injection E as -> ->.
  pose proof (ok_unique Hfit2 Hfit) as E. injection E as -> ->.
  pose proof (ok_unique Hmax2 Hmax) as E. subst best_f2.
  apply ei_observation_inv in Hobs.
  destruct Hobs as (Xc & v & costs & y & Hopt & Hfull & _).
  apply ei_observation_inv in Hobs2.
  destruct Hobs2 as (Xc2 & v2 & costs2 & y2 & Hopt2 & Hfull2 & _).
  pose proof (ok_unique Hopt2 Hopt) as E. injection E as -> -> ->.
  pose proof (ok_unique Hfull2 Hfull) as E. subst new_x2.
  subst g2. cbn [model train_x] in *. injection Hm2 as ->.
  apply get_recommendation_inv in Hrec as (R & vr & HR & ->).
  apply get_recommendation_inv in Hrec2 as (R2 & vr2 & HR2 & ->).
  pose proof (ok_unique HR2 HR) as E. injection E as -> -> ->.
  repeat split; reflexivity.
Qed.

(** On the executable instance with the flag set the baseline makes one
    pass, at points where the two test functions differ: the observations
    of that batch differ, the recommended point does not. *)
Lemma X9_witness :
  BoTorchSpec Toy.lib /\
  exists final_rec g w' final_rec2 g2 w2,
    ei_run Toy.lib (Some "1"%string) Toy.g0 Toy.w0 = Ok (final_rec, g, w') /\
    ei_run (with_evaluate Toy.lib Toy.evaluate'') (Some "1"%string)
      Toy.g0 Toy.w0 = Ok (final_rec2, g2, w2) /\
    train_obj g2 <> train_obj g /\
    final_rec2 = final_rec.
Proof.
  split; [exact ToyFacts.lib_spec | ].
  do 6 eexists.
  split; [vm_compute; reflexivity | ].
  split; [vm_compute; reflexivity | ].
  split; [vm_compute; discriminate | ].
  edestruct (@X9_baseline_recommendation_ignores_final_batch
               Toy.lib ToyFacts.lib_spec (Some "1"%string) Toy.g0 Toy.w0)
    as (X & Y & new_x & new_obj & mdl & wa & wb & mll & wc & wd
        & Hx & _ & Hlen & _ & _ & _ & _ & _ & Hany).
  { vm_compute. reflexivity. }
  apply (app_split_last4 _ _ Hx) in Hlen.
  edestruct (Hany Toy.evaluate'') as (Hrec & _).
  - intros x Hin. rewrite Hlen in Hin. vm_compute in Hin.
    repeat (destruct Hin as [<- | Hin]; [reflexivity | ]). destruct Hin.
  - vm_compute. reflexivity.
  - exact Hrec.
Defined.

(* ================================================================== *)
(** ** The projection to the target fidelity *)

Lemma project_row x :
  length x = 7%nat ->
  set_coord 6 1 x = firstn 6 x ++ [1] /\
  (valid_point x -> target_point (set_coord 6 1 x)).
Proof.
  intros Hx. do 8 (destruct x as [| ? x]; try discriminate).
  split; [reflexivity | ].
  intros (Hl & Hd & _). cbn [set_coord]. repeat split.
  - exact Hd.
  - unfold fidelity_of, fidelities. cbn. auto.
Qed.

(** X10.  On 7-dimensional points [project] keeps the six design
    coordinates and sets the fidelity to the target 1.0: it turns every
    valid training input into a valid input at the target fidelity, and
    projecting twice is projecting once. *)
Theorem X10_project_sets_target_fidelity X :
  Forall (fun x => length x = 7%nat) X ->
  project X = map (fun x => firstn 6 x ++ [1]) X /\
  project (project X) = project X /\
  (Forall valid_point X -> Forall target_point (project X)).
Proof.
  intros HX.
  assert (E : project X = map (fun x => firstn 6 x ++ [1]) X).
  { change (project X) with (map (set_coord 6 1) X).
    apply map_ext_in. intros x Hx. rewrite Forall_forall in HX.
    now apply project_row, HX. }
  split; [exact E | ]. split.
  - rewrite E. change (project ?Y) with (map (set_coord 6 1) Y).
    rewrite map_map. apply map_ext_in. intros x Hx.
    rewrite Forall_forall in HX. specialize (HX x Hx).
    do 8 (destruct x as [| ? x]; try discriminate). reflexivity.
  - intros Hv. change (project X) with (map (set_coord 6 1) X).
    apply Forall_forall. intros y Hy. apply in_map_iff in Hy.
    destruct Hy as (x & <- & Hx). rewrite Forall_forall in HX, Hv.
    now apply project_row; [apply HX | apply Hv].
Qed.

Lemma X10_witness :
  Forall (fun x => length x = 7%nat) (train_x Toy.g1) /\
  Forall valid_point (train_x Toy.g1) /\
  project (train_x Toy.g1)
  = map (fun x => firstn 6 x ++ [1]) (train_x Toy.g1) /\
  project (project (train_x Toy.g1)) = project (train_x Toy.g1) /\
  Forall target_point (project (train_x Toy.g1)).
Proof.
  assert (Hv : Forall valid_point (train_x Toy.g1)).
  { destruct (@generate_initial_data_spec Toy.lib ToyFacts.lib_spec 16 Toy.w0
                (train_x Toy.g1) (train_obj Toy.g1) Toy.w1) as (_ & Hv & _).
    - vm_compute. reflexivity.
    - exact Hv. }
  assert (Hw : Forall (fun x => length x = 7%nat) (train_x Toy.g1)).
  { eapply Forall_impl; [ | exact Hv]. apply valid_point_width. }
  destruct (X10_project_sets_target_fidelity Hw) as (E & Hidem & Ht).
  split; [exact Hw | ]. split; [exact Hv | ]. split; [exact E | ].
  split; [exact Hidem | ]. exact (Ht Hv).
Defined.

(* ================================================================== *)
(** ** What the two observation helpers return *)

(** X11.  [optimize_mfkg_and_get_observation] returns the candidates of the
    mixed optimiser as they are, started from the one-shot initial
    conditions: 4 valid training inputs, each with its observation, and a
    cost that is the sum of 5 plus the fidelity over the candidates, between
    22 and 24. *)
Theorem X11_mfkg_observation
  L (HL : BoTorchSpec L) smoke acq w new_x new_obj cost w' :
  optimize_mfkg_and_get_observation L smoke acq w
  = Ok (new_x, new_obj, cost, w') ->
  exists ic w1 v,
    gen_one_shot_kg_initial_conditions L acq bounds 4 10 512 w = Ok (ic, w1) /\
    optimize_acqf_mixed L acq bounds
      [[(6%nat, 1 # 2)]; [(6%nat, 3 # 4)]; [(6%nat, 1)]]
      4 (NUM_RESTARTS smoke) (RAW_SAMPLES smoke) ic
      {| batch_limit := 5; maxiter := 200 |} w1 = Ok (new_x, v, w') /\
    length new_x = 4%nat /\
    Forall valid_point new_x /\
    observed L new_x new_obj /\
    cost == batch_cost new_x /\
    22 <= cost /\ cost <= 24.
Proof.
  intros H. apply kg_observation_inv in H.
  destruct H as (ic & w1 & v & costs & y & Hic & Hopt & Hcost & -> & Hy & ->).
  pose proof Hopt as Hs. apply (optimize_acqf_mixed_spec HL) in Hs as [Hq Hin].
  assert (Hv : Forall valid_point new_x).
  { eapply Forall_impl; [ | exact Hin]. intros x [Hb Hf].
    now apply mixed_candidate_valid. }
  apply cost_forward_batch in Hcost as (Hsum & _ & _).
  destruct (@valid_total_cost [new_x]) as [Hlo Hhi].
  { constructor; [split; assumption | constructor]. }
  unfold total_cost in Hlo, Hhi. cbn [map length] in Hlo, Hhi.
  rewrite Qsum_cons, Qsum_nil in Hlo, Hhi.
  exists ic, w1, v. split; [exact Hic | ]. split; [exact Hopt | ].
  split; [exact Hq | ]. split; [exact Hv | ].
  split; [now apply problem_observed | ]. split; [exact Hsum | ].
  rewrite Hsum. split.
  - eapply Qle_trans; [ | eapply Qle_trans; [exact Hlo | ]].
    + discriminate.
    + rewrite Qplus_0_r. apply Qle_refl.
  - eapply Qle_trans; [ | exact Hhi].
    rewrite Qplus_0_r. apply Qle_refl.
Qed.

Lemma X11_witness :
  BoTorchSpec Toy.lib /\
  exists new_x new_obj cost w',
    optimize_mfkg_and_get_observation Toy.lib None
      (PosteriorMean ([], [])) Toy.w0 = Ok (new_x, new_obj, cost, w') /\
    length new_x = 4%nat /\ 22 <= cost /\ cost <= 24.
Proof.
  split; [exact ToyFacts.lib_spec | ].
  do 4 eexists. split; [vm_compute; reflexivity | ].
  edestruct (@X11_mfkg_observation Toy.lib ToyFacts.lib_spec None
               (PosteriorMean ([], [])) Toy.w0)
    as (ic & w1 & v & _ & _ & Hq & _ & _ & _ & Hlo & Hhi).
  { vm_compute. reflexivity. }
  split; [exact Hq | ]. split; [exact Hlo | exact Hhi].
Defined.

(** X12.  [optimize_ei_and_get_observation], on the acquisition function
    built by [get_ei], returns the 4 points of the optimiser over the six
    design coordinates, each completed by the fidelity 1, with their
    observations, at a cost of exactly 24. *)
Theorem X12_ei_observation
  L (HL : BoTorchSpec L) mdl best_f w new_x new_obj cost w' :
  optimize_ei_and_get_observation L (get_ei L mdl best_f) w
  = Ok (new_x, new_obj, cost, w') ->
  exists X v,
    optimize_acqf L (get_ei L mdl best_f) (drop_last_column bounds) 4 10 512
      {| batch_limit := 5; maxiter := 200 |} w = Ok (X, v, w') /\
    length X = 4%nat /\
    Forall (in_bounds (drop_last_column bounds)) X /\
    new_x = map (fun x => x ++ [1]) X /\
    Forall target_point new_x /\
    observed L new_x new_obj /\
    cost == 24.
Proof.
  intros H. apply ei_observation_inv in H.
  destruct H as (X & v & costs & y & Hopt & Hfull & Hcost & -> & Hy & ->).
  pose proof Hopt as Hs. apply (optimize_acqf_spec HL) in Hs as [Hq Hin].
  assert (E : new_x = map (fun x => x ++ [1]) X).
  { change (Ok (map (fill_row 7 0 [6%nat] [1]) X) = Ok new_x) in Hfull.
    injection Hfull as <-.
    apply map_ext_in. intros x Hx. rewrite Forall_forall in Hin.
    change (fill_row 7 0 [6%nat] [1] x = x ++ [1]).
    now destruct (fixed_candidate_valid (Hin x Hx)) as (-> & _). }
  clear Hfull. subst new_x.
  assert (Ht : Forall target_point (map (fun x => x ++ [1]) X)).
  { apply Forall_forall. intros x' Hx'. apply in_map_iff in Hx'.
    destruct Hx' as (x & <- & Hx). rewrite Forall_forall in Hin.
    destruct (fixed_candidate_valid (Hin x Hx)) as (_ & _ & Hv & Hf).
    split; assumption. }
  apply cost_forward_batch in Hcost as (Hsum & _ & _).
  exists X, v. split; [exact Hopt | ]. split; [exact Hq | ].
  split; [exact Hin | ]. split; [reflexivity | ]. split; [exact Ht | ].
  split; [now apply problem_observed | ].
  rewrite Hsum. apply target_batch_cost; [now rewrite length_map | exact Ht].
Qed.

Lemma X12_witness :
  BoTorchSpec Toy.lib /\
  exists new_x new_obj cost w',
    optimize_ei_and_get_observation Toy.lib
      (get_ei Toy.lib ([], []) 0) Toy.w0 = Ok (new_x, new_obj, cost, w') /\
    Forall target_point new_x /\ cost == 24.
Proof.
  split; [exact ToyFacts.lib_spec | ].
  do 4 eexists. split; [vm_compute; reflexivity | ].
  edestruct (@X12_ei_observation Toy.lib ToyFacts.lib_spec ([], []) 0 Toy.w0)
    as (X & v & _ & _ & _ & _ & Ht & _ & Hc).
  { vm_compute. reflexivity. }
  split; [exact Ht | exact Hc].
Defined.

(* ================================================================== *)
(** ** The acquisition stage of the baseline *)

(** C3, as the notebook has it.  The baseline and the multi-fidelity phase
    are the same skeleton (fresh initial data, the loop with its model
    construction and fitting, concatenation and cost accumulation, the
    recommendation) around two different acquisition stages, and the stage
    of the baseline is the following one.  It takes the largest observation
    so far as [best_f]; it makes one library call, [optimize_acqf] with
    [q = 4] over the six design coordinates, on [qExpectedImprovement] with
    that [best_f] wrapped in a fixed-feature acquisition function that pins
    column 6 to 1, with some restart count, raw-sample count and options;
    the state of the library after the stage is the state after that call.
    The four points returned, each of six coordinates, are completed by the
    fidelity 1, so all new points are at the target fidelity; they are
    observed by the test function and costed by the cost model. *)
Theorem C3_baseline_is_target_fidelity_ei_in_the_same_skeleton
  L (HL : BoTorchSpec L) smoke g0 w :
  kg_run L smoke g0 w = bo_phase L smoke (kg_acquire L smoke) g0 w /\
  ei_run L smoke g0 w = bo_phase L smoke (ei_acquire L) g0 w /\
  forall g mdl w1 new_x new_obj cost w2,
    ei_acquire L g mdl w1 = Ok (new_x, new_obj, cost, w2) ->
    exists best_f nr rs o X v,
      tensor_max (train_obj g) = Ok best_f /\
      optimize_acqf L
        (FixedFeatureAcquisitionFunction
           (qExpectedImprovement mdl best_f) 7 [6%nat] [1])
        (drop_last_column bounds) 4 nr rs o w1 = Ok (X, v, w2) /\
      length X = 4%nat /\
      Forall (fun x => length x = 6%nat) X /\
      new_x = map (fun x => x ++ [1]) X /\
      Forall target_point new_x /\
      observed L new_x new_obj /\
      cost == batch_cost new_x.
Proof.
  split; [ | split].
  - unfold kg_run, bo_phase.
    apply bind_ext. intros [X0 Y0] w1. unfold bind at 1 3.
    rewrite (for_range_ext _ _ (kg_iteration_skeleton L smoke)). reflexivity.
  - unfold ei_run, bo_phase.
    apply bind_ext. intros [X0 Y0] w1. unfold bind at 1 3.
    rewrite (for_range_ext _ _ (ei_iteration_skeleton L)). reflexivity.
  - intros g mdl w1 new_x new_obj cost w2 H. unfold ei_acquire in H.
    apply bind_ok_inv in H as (best_f & w1' & Hmax & H).
    apply lift_ok_inv in Hmax as [Hmax ->].
    apply ei_observation_inv in H.
    destruct H as (X & v & costs & y & Hopt & Hfull & Hcost & -> & Hy & ->).
    pose proof Hopt as Hs. apply (optimize_acqf_spec HL) in Hs as [Hq Hin].
    assert (E : new_x = map (fun x => x ++ [1]) X).
    { change (Ok (map (fill_row 7 0 [6%nat] [1]) X) = Ok new_x) in Hfull.
      injection Hfull as <-.
      apply map_ext_in. intros x Hx. rewrite Forall_forall in Hin.
      change (fill_row 7 0 [6%nat] [1] x = x ++ [1]).
      now destruct (fixed_candidate_valid (Hin x Hx)) as (-> & _). }
    clear Hfull. subst new_x.
    exists best_f, 10%nat, 512%nat, {| batch_limit := 5; maxiter := 200 |}, X, v.
    split; [exact Hmax | ]. split; [exact Hopt | ]. split; [exact Hq | ].
    split.
    { eapply Forall_impl; [ | exact Hin]. intros x Hx.
      now destruct (fixed_candidate_valid Hx) as (_ & Hl & _). }
    split; [reflexivity | ].
    split.
    { apply Forall_forall. intros x' Hx'. apply in_map_iff in Hx'.
      destruct Hx' as (x & <- & Hx). rewrite Forall_forall in Hin.
      destruct (fixed_candidate_valid (Hin x Hx)) as (_ & _ & Hv & Hf).
      split; assumption. }
    split; [now apply problem_observed | ].
    now apply cost_forward_batch in Hcost as (Hsum & _ & _).
Qed.

(** On the executable instance, the stage of the baseline run on the
    initial data. *)
Lemma C3_witness :
  exists new_x new_obj cost w2,
    ei_acquire Toy.lib Toy.g1 ([], []) Toy.w1
    = Ok (new_x, new_obj, cost, w2) /\
    Forall target_point new_x /\
    cost == batch_cost new_x.
Proof.
  do 4 eexists. split; [vm_compute; reflexivity | ].
  edestruct (proj2 (proj2 (@C3_baseline_is_target_fidelity_ei_in_the_same_skeleton
                             Toy.lib ToyFacts.lib_spec None Toy.g0 Toy.w0))
               Toy.g1 ([], []) Toy.w1)
    as (best_f & nr & rs & o & X & v & _ & _ & _ & _ & _ & Ht & _ & Hc).
  { vm_compute. reflexivity. }
  split; [exact Ht | exact Hc].
Defined.

(** C3, as the specification states it, fails: the baseline is not the
    multi-fidelity phase with only the acquisition function exchanged.  On
    the executable instance the two give different training sets and
    costs, the baseline optimising over the design coordinates alone. *)
Lemma C3_counterexample :
  ei_run Toy.lib None Toy.g0 Toy.w0
  <> bo_phase Toy.lib None (spec_ei_acquire Toy.lib None) Toy.g0 Toy.w0.
Proof.
  vm_compute. intros H. discriminate H.
Qed.

(** The stage as the specification words it is another stage: on the
    executable instance it returns, from the same state, points that are not
    at the target fidelity, after two library calls instead of one. *)
Lemma spec_ei_acquire_is_another_stage :
  exists new_x new_obj cost w2,
    spec_ei_acquire Toy.lib None Toy.g1 ([], []) Toy.w1
    = Ok (new_x, new_obj, cost, w2) /\
    ~ Forall target_point new_x /\
    (forall acq nr rs o X v,
        Toy.optimize acq (drop_last_column bounds) 4 nr rs o Toy.w1
        <> Ok (X, v, w2)).
Proof.
  do 4 eexists. split; [vm_compute; reflexivity | ]. split.
  - intros H. apply Forall_inv in H. destruct H as [_ H].
    vm_compute in H. discriminate H.
  - intros acq nr rs o X v H. unfold Toy.optimize, Toy.checked_call in H.
    destruct (forallb _ _) in H; [ | discriminate H].
    vm_compute in H. injection H as _ _ H. discriminate H.
Qed.
